(** * scripts/pick_open_reference_otus.py

    A shallow embedding of the command-line driver of the subsampled
    open-reference OTU picking workflow, and the properties of its
    configuration stage: option defaults and validation, parameter file
    handling, output directory creation and the dispatch to the single-input
    or the iterative workflow.

    The driver is Python 2 code.  Floats are IEEE binary64 values
    ([PrimFloat.float]), [==] on floats is [PrimFloat.eqb].  Exceptions and
    the file system are threaded through a state and exception monad. *)

From Stdlib Require Import ZArith Floats.PrimFloat.
From stdpp Require Import base gmap sets list strings pretty.

Set Warnings "-inexact-float".
Open Scope string_scope.
Open Scope Z_scope.

(** ** Python values the driver handles *)

(** [errno] values [os.makedirs] can fail with. *)
Inductive errno :=
  | EEXIST | EACCES | ENOENT | ENOTDIR | EROFS | ENAMETOOLONG | ENOSPC.

(** What [option_parser.error] prints after the usage text.  The texts of the
    errors the option parser raises by itself are produced outside this
    script; they are kept symbolic.  [NoArguments] is the usage text alone,
    printed when the command line is empty. *)
Inductive usage_error :=
  | Message (msg : string)
  | RequiredOptionOmitted (name : string)
  | InvalidChoice (name value : string) (choices : list string)
  | InvalidOptionValue (name value : string)
  | NoArguments.

(** [OptionParserError] is the [SystemExit] of [option_parser.error] (status
    2) and of [option_parser.exit(-1)] after the usage text; [LibraryError]
    stands for what an imported function may raise.  Every exception but
    [OptionParserError] ends the run with a traceback. *)
Inductive exception :=
  | IOError (msg : string)
  | OSError (e : errno)
  | IndexError
  | OptionParserError (report : usage_error)
  | LibraryError (name msg : string).

Definition exit_status (e : exception) : Z :=
  match e with
  | OptionParserError NoArguments => -1
  | OptionParserError _ => 2
  | _ => 1
  end.

Inductive result (A : Type) :=
  | Ok (a : A)
  | Raise (e : exception).
Arguments Ok {A} a.
Arguments Raise {A} e.

(** Truth value of [None], [True], [False] and of an optional string, as
    tested by [if x:]. *)
Definition truthy_flag (x : option bool) : bool :=
  match x with Some b => b | None => false end.

Definition truthy_str (x : option string) : bool :=
  match x with Some s => negb (String.eqb s "") | None => false end.

(** ** The imported names used as values *)

Inductive command_handler_t := call_commands_serially | print_commands.
Inductive status_update_callback_t := print_to_stdout | no_status_updates.

(** The parameters dictionary: script name, then parameter name, to a value
    ([None] for a parameter that is switched on without a value). *)
Abbreviation params_t := (gmap string (gmap string (option string))).
Abbreviation qiime_config_t := (gmap string string).

(** ** The parsed options ([opts]) *)

Module Opts.
Record t := {
  input_fps : list string;
  reference_fp : string;
  output_dir : string;
  otu_picking_method : string;
  parameter_fp : option string;
  prefilter_refseqs_fp : option string;
  new_ref_set_id : string;
  force : option bool;
  parallel : bool;
  jobs_to_start : Z;
  percent_subsample : float;
  prefilter_percent_id : float;
  step1_otu_map_fp : option string;
  step1_failures_fasta_fp : option string;
  suppress_step4 : bool;
  min_otu_size : Z;
  suppress_taxonomy_assignment : bool;
  suppress_align_and_tree : bool;
  verbose : bool }.
End Opts.

(** ** The keyword arguments of the two workflow functions *)

Module Kw.
Record t := {
  refseqs_fp : string;
  output_dir : string;
  percent_subsample : float;
  new_ref_set_id : string;
  command_handler : command_handler_t;
  params : params_t;
  min_otu_size : Z;
  run_assign_tax : bool;
  run_align_and_tree : bool;
  qiime_config : qiime_config_t;
  prefilter_refseqs_fp : option string;
  prefilter_percent_id : option float;
  step1_otu_map_fp : option string;
  step1_failures_fasta_fp : option string;
  parallel : bool;
  suppress_step4 : bool;
  logger : option unit;
  denovo_otu_picking_method : string;
  reference_otu_picking_method : string;
  status_update_callback : status_update_callback_t }.
End Kw.

(** A call of one of the two functions imported from
    [qiime.workflow.pick_open_reference_otus]. *)
Inductive workflow_call :=
  | pick_subsampled_open_reference_otus (input_fp : string) (kw : Kw.t)
  | iterative_pick_subsampled_open_reference_otus
      (input_fps : list string) (kw : Kw.t).

Definition kwargs (c : workflow_call) : Kw.t :=
  match c with
  | pick_subsampled_open_reference_otus _ kw => kw
  | iterative_pick_subsampled_open_reference_otus _ kw => kw
  end.

(** ** The world the driver runs in *)

(** The file system as the driver sees it.  A directory is known by its
    place in the tree, the list of names on the way from the root, so that
    [/home/ubuntu/out], [/home/ubuntu/out/] and [/home//ubuntu/./out] name the
    same directory; the working directory is the root.  The regular files
    are known by the name they are opened with, each with its lines;
    [unreadable] are the files [open] refuses, and [refused] the places
    where the operating system refuses to create a directory (no write
    permission on the parent, a read-only volume, ...), with the error it
    reports. *)
Record filesystem := {
  directories : gset (list string);
  files : gmap string (list string);
  unreadable : gset string;
  refused : gmap (list string) errno }.

(** What a run does to its environment, in order: files opened (or refused)
    and closed, [os.makedirs] calls with their failure if any, and the call
    of the workflow. *)
Inductive event :=
  | Open (path : string) (opened : bool)
  | Close (path : string)
  | Makedirs (path : string) (failure : option errno)
  | Invoke (call : workflow_call).

Record world := {
  fs : filesystem;
  trace : list event }.

Definition log (e : event) (w : world) : world :=
  {| fs := fs w; trace := trace w ++ [e] |}.

(** ** State and exception monad *)

Definition M (A : Type) : Type := world -> result A * world.

Definition ret {A} (a : A) : M A := fun w => (Ok a, w).

Definition bind {A B} (m : M A) (k : A -> M B) : M B :=
  fun w => match m w with
           | (Ok a, w') => k a w'
           | (Raise e, w') => (Raise e, w')
           end.

Definition raise {A} (e : exception) : M A := fun w => (Raise e, w).

(** [try: body / except <class>: handler]; [handler e = None] when the
    [except] clause does not match [e]. *)
Definition try_except {A} (body : M A) (handler : exception -> option (M A))
  : M A :=
  fun w => match body w with
           | (Ok a, w') => (Ok a, w')
           | (Raise e, w') =>
               match handler e with
               | Some h => h w'
               | None => (Raise e, w')
               end
           end.

Definition lift {A} (r : result A) : M A := fun w => (r, w).

Definition get_fs : M filesystem := fun w => (Ok (fs w), w).

Declare Scope py_scope.
Delimit Scope py_scope with py.
Notation "x <- c ;; k" := (bind c (fun x => k))
  (at level 100, c at next level, right associativity) : py_scope.
Notation "c ;; k" := (bind c (fun _ => k))
  (at level 100, right associativity) : py_scope.
Open Scope py_scope.

(** ** Built-ins *)

(** [open(path, 'U')]: the lines of the file, or [IOError] (whose own
    message is not modelled: the script replaces it). *)
Definition open (path : string) : M (list string) :=
  fun w =>
    match files (fs w) !! path with
    | Some lines =>
        if bool_decide (path ∈ unreadable (fs w))
        then (Raise (IOError path), log (Open path false) w)
        else (Ok lines, log (Open path true) w)
    | None => (Raise (IOError path), log (Open path false) w)
    end.

Definition close (path : string) : M unit :=
  fun w => (Ok tt, log (Close path) w).

(** *** Paths *)

(** [path.split('/')] *)
Fixpoint split_path (acc path : string) : list string :=
  match path with
  | EmptyString => [acc]
  | String c path' =>
      if Ascii.eqb c (Ascii.ascii_of_nat 47) then acc :: split_path "" path'
      else split_path (acc +:+ String c "") path'
  end.

(** The names and [..] steps of a path: empty components (doubled and
    trailing slashes, the leading slash) and [.] lead nowhere. *)
Definition components (path : string) : list string :=
  List.filter (fun c => negb (String.eqb c "") && negb (String.eqb c "."))
              (split_path "" path).

(** One step from the place [here]: up for [..] (the root is its own
    parent), down into [c] otherwise. *)
Definition step (here : list string) (c : string) : list string :=
  if String.eqb c ".." then removelast here else (here ++ [c])%list.

(** The places passed on the way along [cs], starting from [here]. *)
Fixpoint positions (here : list string) (cs : list string)
  : list (list string) :=
  match cs with
  | [] => []
  | c :: cs' => step here c :: positions (step here c) cs'
  end.

(** The place a path leads to. *)
Definition canonical (path : string) : list string :=
  default [] (last (positions [] (components path))).

Definition is_directory (disk : filesystem) (place : list string) : bool :=
  bool_decide (place = []) || bool_decide (place ∈ directories disk).

Definition is_regular_file (disk : filesystem) (place : list string) : bool :=
  existsb (fun fp => bool_decide (canonical fp = place))
          (elements (dom (files disk))).

(** [os.path.isdir(path)]: every place on the way is a directory. *)
Definition isdir (disk : filesystem) (path : string) : bool :=
  negb (String.eqb path "") &&
  forallb (is_directory disk) (positions [] (components path)).

Definition add_directories (new : gset (list string)) (disk : filesystem)
  : filesystem :=
  {| directories := new ∪ directories disk;
     files := files disk;
     unreadable := unreadable disk;
     refused := refused disk |}.

(** *** [os.makedirs] *)

(** [os.mkdir] at one place: the error it fails with, if any, and the disk
    it leaves. *)
Definition mkdir (place : list string) (disk : filesystem)
  : option errno * filesystem :=
  if is_directory disk place || is_regular_file disk place
  then (Some EEXIST, disk)
  else if is_regular_file disk (removelast place) then (Some ENOTDIR, disk)
  else if negb (is_directory disk (removelast place))
  then (Some ENOENT, disk)
  else match refused disk !! place with
       | Some e => (Some e, disk)
       | None => (None, add_directories {[ place ]} disk)
       end.

(** [os.makedirs(name)] splits the last component off the path and, when
    the head that is left does not exist, first calls itself on the head
    (an [EEXIST] of that call is passed over, any other error is raised),
    then calls [os.mkdir(name)].  Unfolded along the path, this is
    [make_missing] on the places before the last one: each place that is
    missing is created, in order, with [os.mkdir]; a place that is a
    regular file makes the [os.mkdir] below it fail with [ENOTDIR]; the
    directories created before a failure stay. *)
Fixpoint make_missing (places : list (list string)) (disk : filesystem)
  : option errno * filesystem :=
  match places with
  | [] => (None, disk)
  | place :: places' =>
      if is_directory disk place then make_missing places' disk
      else if is_regular_file disk place then (Some ENOTDIR, disk)
      else match mkdir place disk with
           | (None, disk') => make_missing places' disk'
           | failed => failed
           end
  end.

(** [os.makedirs(path)] on a disk: the intermediate directories that are
    missing are created, then [os.mkdir] is called on the leaf, which fails
    with [EEXIST] when the leaf exists.  A path without a name in it is the
    root or the working directory ([EEXIST]), or the empty path
    ([ENOENT]). *)
Definition os_makedirs (path : string) (disk : filesystem)
  : option errno * filesystem :=
  let places := positions [] (components path) in
  match last places with
  | None => (Some (if String.eqb path "" then ENOENT else EEXIST), disk)
  | Some leaf =>
      match make_missing (removelast places) disk with
      | (None, disk') => mkdir leaf disk'
      | failed => failed
      end
  end.

(** [os.makedirs(path)]: raises [OSError] when the leaf exists or a
    directory cannot be created. *)
Definition makedirs (path : string) : M unit :=
  fun w =>
    let result := os_makedirs path (fs w) in
    (match result.1 with Some e => Raise (OSError e) | None => Ok tt end,
     log (Makedirs path result.1) {| fs := result.2; trace := trace w |}).

(** [option_parser.error(msg)]: usage and [msg] on stderr, exit status 2. *)
Definition option_parser_error {A} (report : usage_error) : M A :=
  raise (OptionParserError report).

(** [option_parser.print_usage()] and [option_parser.exit(-1)] *)
Definition option_parser_exit_usage {A} : M A :=
  raise (OptionParserError NoArguments).

(** *** The workflow *)

(** What a workflow function does: it returns or raises, and it has written
    files, each given by its name below the output directory and its
    lines. *)
Record workflow_result := {
  returned : result unit;
  written : list (string * list string) }.

Definition artifact_fp (output_dir name : string) : string :=
  output_dir +:+ "/" +:+ name.

(** The disk after the files were written into the output directory, with
    the directories they are in. *)
Definition write_artifacts (output_dir : string)
    (artifacts : list (string * list string)) (disk : filesystem)
  : filesystem :=
  {| directories :=
       list_to_set
         (concat ((fun a => removelast (positions []
                               (components (artifact_fp output_dir a.1))))
                  <$> artifacts))
       ∪ directories disk;
     files :=
       list_to_map ((fun a => (artifact_fp output_dir a.1, a.2))
                    <$> artifacts)
       ∪ files disk;
     unreadable := unreadable disk;
     refused := refused disk |}.

(** ** What the script imports

    [qiime.util], [qiime.parse], [qiime.workflow.util] and
    [qiime.workflow.pick_open_reference_otus] are separate modules.  The
    driver is embedded over any implementation of the names it imports from
    them: the configuration loaded at import time and its item access, the
    default of the shared [jobs_to_start_workflow] option, the checkers of
    the path-valued option types, the parameter file parser, the validation
    of the number of jobs (which updates the parameters in place and may
    end the run through [option_parser.error]) and the two workflow
    functions.  The checkers read the disk at most; [workflow] is what the
    called workflow function does on the disk it finds. *)
Record imports := {
  load_qiime_config : qiime_config_t;
  qiime_config_getitem : qiime_config_t -> string -> result (option string);
  jobs_to_start_workflow_default : Z;
  existing_filepath : filesystem -> string -> bool;
  existing_filepaths : filesystem -> string -> option (list string);
  new_dirpath : filesystem -> string -> bool;
  parse_qiime_parameters : list string -> result params_t;
  validate_and_set_jobs_to_start :
    params_t -> Z -> option string -> bool -> result params_t;
  workflow : workflow_call -> filesystem -> workflow_result }.

(** ** The command line

    What the operator wrote: [None] (or [false] for a flag) when an option
    is absent.  Numeric arguments are given by their value ([type='float']
    and [type='int'] accept what [float()] and [int()] accept). *)
Record command_line := {
  arg_input_fps : option string;
  arg_reference_fp : option string;
  arg_output_dir : option string;
  arg_otu_picking_method : option string;
  arg_parameter_fp : option string;
  arg_prefilter_refseqs_fp : option string;
  arg_new_ref_set_id : option string;
  arg_force : bool;
  arg_parallel : bool;
  arg_jobs_to_start : option Z;
  arg_percent_subsample : option float;
  arg_prefilter_percent_id : option float;
  arg_step1_otu_map_fp : option string;
  arg_step1_failures_fasta_fp : option string;
  arg_suppress_step4 : bool;
  arg_min_otu_size : option Z;
  arg_suppress_taxonomy_assignment : bool;
  arg_suppress_align_and_tree : bool;
  arg_verbose : bool }.

Definition absent {A} (v : option A) : bool :=
  match v with Some _ => false | None => true end.

(** [len(argv) == 1]: nothing but the name of the script. *)
Definition no_arguments (argv : command_line) : bool :=
  absent (arg_input_fps argv) && absent (arg_reference_fp argv) &&
  absent (arg_output_dir argv) && absent (arg_otu_picking_method argv) &&
  absent (arg_parameter_fp argv) && absent (arg_prefilter_refseqs_fp argv) &&
  absent (arg_new_ref_set_id argv) && negb (arg_force argv) &&
  negb (arg_parallel argv) && absent (arg_jobs_to_start argv) &&
  absent (arg_percent_subsample argv) &&
  absent (arg_prefilter_percent_id argv) &&
  absent (arg_step1_otu_map_fp argv) &&
  absent (arg_step1_failures_fasta_fp argv) &&
  negb (arg_suppress_step4 argv) && absent (arg_min_otu_size argv) &&
  negb (arg_suppress_taxonomy_assignment argv) &&
  negb (arg_suppress_align_and_tree argv) && negb (arg_verbose argv).

Section Script.

Context (lib : imports).

Definition qiime_config : qiime_config_t := load_qiime_config lib.

(** *** [script_info]: option types *)

Definition required {A} (name : string) (v : option A) : M A :=
  match v with
  | Some a => ret a
  | None => option_parser_error (RequiredOptionOmitted name)
  end.

Definition with_default {A} (default : A) (v : option A) : A :=
  match v with Some a => a | None => default end.

(** [type='choice'] *)
Definition choice (name : string) (choices : list string) (value : string)
  : M string :=
  if bool_decide (value ∈ choices) then ret value
  else option_parser_error (InvalidChoice name value choices).

(** [type='existing_filepath'] *)
Definition check_existing_filepath (name value : string) : M string :=
  fs <- get_fs ;;
  if existing_filepath lib fs value then ret value
  else option_parser_error (InvalidOptionValue name value).

(** [type='existing_filepaths'] *)
Definition check_existing_filepaths (name value : string)
  : M (list string) :=
  fs <- get_fs ;;
  match existing_filepaths lib fs value with
  | Some fps => ret fps
  | None => option_parser_error (InvalidOptionValue name value)
  end.

(** [type='new_dirpath'] *)
Definition check_new_dirpath (name value : string) : M string :=
  fs <- get_fs ;;
  if new_dirpath lib fs value then ret value
  else option_parser_error (InvalidOptionValue name value).

Definition optional {A} (check : string -> M A) (v : option string)
  : M (option A) :=
  match v with
  | Some s => a <- check s ;; ret (Some a)
  | None => ret None
  end.

(** [action='store_true']: without a default the option is [None] when
    absent. *)
Definition store_true (present : bool) : option bool :=
  if present then Some true else None.

(** [action='store_true', default=...] *)
Definition store_true_default (default present : bool) : bool :=
  if present then true else default.

(** *** [script_info]: the options table *)

Definition otu_picking_method_choices : list string :=
  ["uclust"; "usearch61"].
Definition otu_picking_method_default : string := "uclust".
Definition new_ref_set_id_default : string := "New".
Definition percent_subsample_default : float := 0.001%float.
Definition prefilter_percent_id_default : float := 0.60%float.
Definition min_otu_size_default : Z := 2.

(** Modelled from the spec: [parse_command_line_parameters] belongs to
    [qiime.util], which the script imports and which is not part of the
    source file.  The options table it is given, [script_info] with the
    types, choices and defaults of the options, is written in the script.
    The model applies to that table what the specification says of the
    configuration stage (section 6 lists the required and the optional
    options of the invocation surface; section 7 makes a bad or missing
    required path a configuration error, detected before anything is
    started and reported to the operator, the process exiting non-zero;
    section 9 has the method selector validated when the configuration is
    parsed): every supplied value is checked against the type of its option
    ([choice] by membership in [choices], the path types by the imported
    checkers), an absent option takes its default, and a missing required
    option is an error.  An error is [option_parser.error]; which of several
    errors is reported first is the parser's business, the values are
    checked here in the order of the table and the required options last.
    On an empty command line the usage text is printed and the run ends
    with [option_parser.exit(-1)], as [qiime.util] does for a script with
    required options.  Positional arguments are not part of a
    [command_line]. *)
Definition parse_command_line_parameters (argv : command_line) : M Opts.t :=
  (if no_arguments argv then option_parser_exit_usage else ret tt) ;;
  (* required_options *)
  input_fps <- optional (check_existing_filepaths "--input_fps")
                 (arg_input_fps argv) ;;
  reference_fp <- optional (check_existing_filepath "--reference_fp")
                    (arg_reference_fp argv) ;;
  output_dir <- optional (check_new_dirpath "--output_dir")
                  (arg_output_dir argv) ;;
  (* optional_options *)
  otu_picking_method <-
    choice "--otu_picking_method" otu_picking_method_choices
      (with_default otu_picking_method_default
         (arg_otu_picking_method argv)) ;;
  parameter_fp <- optional (check_existing_filepath "--parameter_fp")
                    (arg_parameter_fp argv) ;;
  prefilter_refseqs_fp <-
    optional (check_existing_filepath "--prefilter_refseqs_fp")
      (arg_prefilter_refseqs_fp argv) ;;
  step1_otu_map_fp <-
    optional (check_existing_filepath "--step1_otu_map_fp")
      (arg_step1_otu_map_fp argv) ;;
  step1_failures_fasta_fp <-
    optional (check_existing_filepath "--step1_failures_fasta_fp")
      (arg_step1_failures_fasta_fp argv) ;;
  input_fps <- required "--input_fps" input_fps ;;
  reference_fp <- required "--reference_fp" reference_fp ;;
  output_dir <- required "--output_dir" output_dir ;;
  ret {| Opts.input_fps := input_fps;
         Opts.reference_fp := reference_fp;
         Opts.output_dir := output_dir;
         Opts.otu_picking_method := otu_picking_method;
         Opts.parameter_fp := parameter_fp;
         Opts.prefilter_refseqs_fp := prefilter_refseqs_fp;
         Opts.new_ref_set_id :=
           with_default new_ref_set_id_default (arg_new_ref_set_id argv);
         Opts.force := store_true (arg_force argv);
         Opts.parallel := store_true_default false (arg_parallel argv);
         Opts.jobs_to_start :=
           with_default (jobs_to_start_workflow_default lib)
             (arg_jobs_to_start argv);
         Opts.percent_subsample :=
           with_default percent_subsample_default
             (arg_percent_subsample argv);
         Opts.prefilter_percent_id :=
           with_default prefilter_percent_id_default
             (arg_prefilter_percent_id argv);
         Opts.step1_otu_map_fp := step1_otu_map_fp;
         Opts.step1_failures_fasta_fp := step1_failures_fasta_fp;
         Opts.suppress_step4 :=
           store_true_default false (arg_suppress_step4 argv);
         Opts.min_otu_size :=
           with_default min_otu_size_default (arg_min_otu_size argv);
         Opts.suppress_taxonomy_assignment :=
           store_true_default false (arg_suppress_taxonomy_assignment argv);
         Opts.suppress_align_and_tree :=
           store_true_default false (arg_suppress_align_and_tree argv);
         Opts.verbose := arg_verbose argv |}.

(** *** [main] *)

(** [seq[i]] *)
Definition getitem {A} (l : list A) (i : nat) : M A :=
  match l !! i with
  | Some a => ret a
  | None => raise IndexError
  end.

(** Modelled from the spec: [pick_subsampled_open_reference_otus] and
    [iterative_pick_subsampled_open_reference_otus] belong to
    [qiime.workflow.pick_open_reference_otus], which the script imports and
    which is not part of the source file.  A call runs the imported
    workflow on the disk as it is: it may return or raise (section 7: a
    failing external invocation aborts the remaining pipeline), and what it
    writes it writes as new files in the output directory (section 5: all
    stages write into stage-named subdirectories of the output directory;
    section 3: artifacts are produced, never edited or removed).  The call
    is recorded. *)
Definition invoke (c : workflow_call) : M unit :=
  fun w =>
    let done := workflow lib c (fs w) in
    (returned done,
     log (Invoke c)
       {| fs := write_artifacts (Kw.output_dir (kwargs c)) (written done)
                  (fs w);
          trace := trace w |}).

Definition main (argv : command_line) : M unit :=
  opts <- parse_command_line_parameters argv ;;
  let verbose := Opts.verbose opts in
  let input_fps := Opts.input_fps opts in
  let refseqs_fp := Opts.reference_fp opts in
  let output_dir := Opts.output_dir opts in
  let otu_picking_method := Opts.otu_picking_method opts in
  let verbose := Opts.verbose opts in
  let print_only := false in
  let percent_subsample := Opts.percent_subsample opts in
  let new_ref_set_id := Opts.new_ref_set_id opts in
  let prefilter_refseqs_fp := Opts.prefilter_refseqs_fp opts in
  let prefilter_percent_id := Some (Opts.prefilter_percent_id opts) in
  let prefilter_percent_id :=
    if PrimFloat.eqb (Opts.prefilter_percent_id opts) 0.0%float
    then None
    else prefilter_percent_id in
  picking_methods <-
    (if String.eqb otu_picking_method "uclust" then
       ret ("uclust", "uclust_ref")
     else if String.eqb otu_picking_method "usearch61" then
       ret ("usearch61", "usearch61_ref")
     else
       (* it shouldn't be possible to get here *)
       option_parser_error
         (Message ("Unkown OTU picking method: " +:+ otu_picking_method))) ;;
  let denovo_otu_picking_method := picking_methods.1 in
  let reference_otu_picking_method := picking_methods.2 in
  let parallel := Opts.parallel opts in
  params <-
    (if truthy_str (Opts.parameter_fp opts) then
       let parameter_fp := default "" (Opts.parameter_fp opts) in
       parameter_f <-
         try_except (open parameter_fp)
           (fun e =>
              match e with
              | IOError _ =>
                  Some (raise (IOError
                    ("Can't open parameters file (" +:+ parameter_fp +:+
                     "). Does it exist? Do you have read access?")))
              | _ => None
              end) ;;
       params <- lift (parse_qiime_parameters lib parameter_f) ;;
       close parameter_fp ;;
       ret params
     else
       lift (parse_qiime_parameters lib [])) ;;
  let jobs_to_start := Opts.jobs_to_start opts in
  default_jobs_to_start <-
    lift (qiime_config_getitem lib qiime_config "jobs_to_start") ;;
  params <-
    lift (validate_and_set_jobs_to_start lib params jobs_to_start
            default_jobs_to_start parallel) ;;
  try_except (makedirs output_dir)
    (fun e =>
       match e with
       | OSError _ =>
           Some (if truthy_flag (Opts.force opts) then ret tt
                 else option_parser_error
                   (Message ("Output directory already exists. Please " +:+
                      "choose a different directory, or force overwrite " +:+
                      "with -f.")))
       | _ => None
       end) ;;
  let command_handler :=
    if print_only then print_commands else call_commands_serially in
  let status_update_callback :=
    if verbose then print_to_stdout else no_status_updates in
  if (length input_fps =? 1)%nat then
    input_fp <- getitem input_fps 0 ;;
    invoke (pick_subsampled_open_reference_otus input_fp
      {| Kw.refseqs_fp := refseqs_fp;
         Kw.output_dir := output_dir;
         Kw.percent_subsample := percent_subsample;
         Kw.new_ref_set_id := new_ref_set_id;
         Kw.command_handler := command_handler;
         Kw.params := params;
         Kw.min_otu_size := Opts.min_otu_size opts;
         Kw.run_assign_tax := negb (Opts.suppress_taxonomy_assignment opts);
         Kw.run_align_and_tree := negb (Opts.suppress_align_and_tree opts);
         Kw.qiime_config := qiime_config;
         Kw.prefilter_refseqs_fp := prefilter_refseqs_fp;
         Kw.prefilter_percent_id := prefilter_percent_id;
         Kw.step1_otu_map_fp := Opts.step1_otu_map_fp opts;
         Kw.step1_failures_fasta_fp := Opts.step1_failures_fasta_fp opts;
         Kw.parallel := parallel;
         Kw.suppress_step4 := Opts.suppress_step4 opts;
         Kw.logger := None;
         Kw.denovo_otu_picking_method := denovo_otu_picking_method;
         Kw.reference_otu_picking_method := reference_otu_picking_method;
         Kw.status_update_callback := status_update_callback |})
  else
    invoke (iterative_pick_subsampled_open_reference_otus input_fps
      {| Kw.refseqs_fp := refseqs_fp;
         Kw.output_dir := output_dir;
         Kw.percent_subsample := percent_subsample;
         Kw.new_ref_set_id := new_ref_set_id;
         Kw.command_handler := command_handler;
         Kw.params := params;
         Kw.min_otu_size := Opts.min_otu_size opts;
         Kw.run_assign_tax := negb (Opts.suppress_taxonomy_assignment opts);
         Kw.run_align_and_tree := negb (Opts.suppress_align_and_tree opts);
         Kw.qiime_config := qiime_config;
         Kw.prefilter_refseqs_fp := prefilter_refseqs_fp;
         Kw.prefilter_percent_id := prefilter_percent_id;
         Kw.step1_otu_map_fp := Opts.step1_otu_map_fp opts;
         Kw.step1_failures_fasta_fp := Opts.step1_failures_fasta_fp opts;
         Kw.parallel := parallel;
         Kw.suppress_step4 := Opts.suppress_step4 opts;
         Kw.logger := None;
         Kw.denovo_otu_picking_method := denovo_otu_picking_method;
         Kw.reference_otu_picking_method := reference_otu_picking_method;
         Kw.status_update_callback := status_update_callback |}).

End Script.

Arguments main lib argv w : simpl never.

(** ** Runs *)

(** A run of the script on a disk. *)
Definition run (lib : imports) (argv : command_line) (disk : filesystem)
  : result unit * world :=
  main lib argv {| fs := disk; trace := [] |}.

(** The workflow calls of a run: the only place where external operations
    (clustering, alignment, classification) are started. *)
Definition invoked (w : world) : list workflow_call :=
  omap (fun e => match e with Invoke c => Some c | _ => None end) (trace w).

(** The directories a run created. *)
Definition created (w : world) : list string :=
  omap (fun e => match e with Makedirs p None => Some p | _ => None end)
       (trace w).

(** The command line with the required options only. *)
Definition command (input_fps reference_fp output_dir : string)
  : command_line :=
  {| arg_input_fps := Some input_fps;
     arg_reference_fp := Some reference_fp;
     arg_output_dir := Some output_dir;
     arg_otu_picking_method := None;
     arg_parameter_fp := None;
     arg_prefilter_refseqs_fp := None;
     arg_new_ref_set_id := None;
     arg_force := false;
     arg_parallel := false;
     arg_jobs_to_start := None;
     arg_percent_subsample := None;
     arg_prefilter_percent_id := None;
     arg_step1_otu_map_fp := None;
     arg_step1_failures_fasta_fp := None;
     arg_suppress_step4 := false;
     arg_min_otu_size := None;
     arg_suppress_taxonomy_assignment := false;
     arg_suppress_align_and_tree := false;
     arg_verbose := false |}.

(** A command line with one more option. *)
Definition with_input_fps (value : string) (argv : command_line)
  : command_line :=
  Build_command_line (Some value) (arg_reference_fp argv)
    (arg_output_dir argv) (arg_otu_picking_method argv)
    (arg_parameter_fp argv) (arg_prefilter_refseqs_fp argv)
    (arg_new_ref_set_id argv) (arg_force argv) (arg_parallel argv)
    (arg_jobs_to_start argv) (arg_percent_subsample argv)
    (arg_prefilter_percent_id argv) (arg_step1_otu_map_fp argv)
    (arg_step1_failures_fasta_fp argv) (arg_suppress_step4 argv)
    (arg_min_otu_size argv) (arg_suppress_taxonomy_assignment argv)
    (arg_suppress_align_and_tree argv) (arg_verbose argv).

Definition with_otu_picking_method (value : string) (argv : command_line)
  : command_line :=
  Build_command_line (arg_input_fps argv) (arg_reference_fp argv)
    (arg_output_dir argv) (Some value)
    (arg_parameter_fp argv) (arg_prefilter_refseqs_fp argv)
    (arg_new_ref_set_id argv) (arg_force argv) (arg_parallel argv)
    (arg_jobs_to_start argv) (arg_percent_subsample argv)
    (arg_prefilter_percent_id argv) (arg_step1_otu_map_fp argv)
    (arg_step1_failures_fasta_fp argv) (arg_suppress_step4 argv)
    (arg_min_otu_size argv) (arg_suppress_taxonomy_assignment argv)
    (arg_suppress_align_and_tree argv) (arg_verbose argv).

Definition with_parameter_fp (value : string) (argv : command_line)
  : command_line :=
  Build_command_line (arg_input_fps argv) (arg_reference_fp argv)
    (arg_output_dir argv) (arg_otu_picking_method argv)
    (Some value) (arg_prefilter_refseqs_fp argv)
    (arg_new_ref_set_id argv) (arg_force argv) (arg_parallel argv)
    (arg_jobs_to_start argv) (arg_percent_subsample argv)
    (arg_prefilter_percent_id argv) (arg_step1_otu_map_fp argv)
    (arg_step1_failures_fasta_fp argv) (arg_suppress_step4 argv)
    (arg_min_otu_size argv) (arg_suppress_taxonomy_assignment argv)
    (arg_suppress_align_and_tree argv) (arg_verbose argv).

Definition with_force (argv : command_line) : command_line :=
  Build_command_line (arg_input_fps argv) (arg_reference_fp argv)
    (arg_output_dir argv) (arg_otu_picking_method argv)
    (arg_parameter_fp argv) (arg_prefilter_refseqs_fp argv)
    (arg_new_ref_set_id argv) true (arg_parallel argv)
    (arg_jobs_to_start argv) (arg_percent_subsample argv)
    (arg_prefilter_percent_id argv) (arg_step1_otu_map_fp argv)
    (arg_step1_failures_fasta_fp argv) (arg_suppress_step4 argv)
    (arg_min_otu_size argv) (arg_suppress_taxonomy_assignment argv)
    (arg_suppress_align_and_tree argv) (arg_verbose argv).

Definition with_percent_subsample (value : float) (argv : command_line)
  : command_line :=
  Build_command_line (arg_input_fps argv) (arg_reference_fp argv)
    (arg_output_dir argv) (arg_otu_picking_method argv)
    (arg_parameter_fp argv) (arg_prefilter_refseqs_fp argv)
    (arg_new_ref_set_id argv) (arg_force argv) (arg_parallel argv)
    (arg_jobs_to_start argv) (Some value)
    (arg_prefilter_percent_id argv) (arg_step1_otu_map_fp argv)
    (arg_step1_failures_fasta_fp argv) (arg_suppress_step4 argv)
    (arg_min_otu_size argv) (arg_suppress_taxonomy_assignment argv)
    (arg_suppress_align_and_tree argv) (arg_verbose argv).

Definition with_prefilter_percent_id (value : float) (argv : command_line)
  : command_line :=
  Build_command_line (arg_input_fps argv) (arg_reference_fp argv)
    (arg_output_dir argv) (arg_otu_picking_method argv)
    (arg_parameter_fp argv) (arg_prefilter_refseqs_fp argv)
    (arg_new_ref_set_id argv) (arg_force argv) (arg_parallel argv)
    (arg_jobs_to_start argv) (arg_percent_subsample argv)
    (Some value) (arg_step1_otu_map_fp argv)
    (arg_step1_failures_fasta_fp argv) (arg_suppress_step4 argv)
    (arg_min_otu_size argv) (arg_suppress_taxonomy_assignment argv)
    (arg_suppress_align_and_tree argv) (arg_verbose argv).

Definition with_step1_otu_map_fp (value : string) (argv : command_line)
  : command_line :=
  Build_command_line (arg_input_fps argv) (arg_reference_fp argv)
    (arg_output_dir argv) (arg_otu_picking_method argv)
    (arg_parameter_fp argv) (arg_prefilter_refseqs_fp argv)
    (arg_new_ref_set_id argv) (arg_force argv) (arg_parallel argv)
    (arg_jobs_to_start argv) (arg_percent_subsample argv)
    (arg_prefilter_percent_id argv) (Some value)
    (arg_step1_failures_fasta_fp argv) (arg_suppress_step4 argv)
    (arg_min_otu_size argv) (arg_suppress_taxonomy_assignment argv)
    (arg_suppress_align_and_tree argv) (arg_verbose argv).

Definition with_suppress_taxonomy_assignment (argv : command_line)
  : command_line :=
  Build_command_line (arg_input_fps argv) (arg_reference_fp argv)
    (arg_output_dir argv) (arg_otu_picking_method argv)
    (arg_parameter_fp argv) (arg_prefilter_refseqs_fp argv)
    (arg_new_ref_set_id argv) (arg_force argv) (arg_parallel argv)
    (arg_jobs_to_start argv) (arg_percent_subsample argv)
    (arg_prefilter_percent_id argv) (arg_step1_otu_map_fp argv)
    (arg_step1_failures_fasta_fp argv) (arg_suppress_step4 argv)
    (arg_min_otu_size argv) true
    (arg_suppress_align_and_tree argv) (arg_verbose argv).

(** ** Specification vocabulary *)

(** [wp m w Q]: running [m] in [w] ends in a result and a world that
    satisfy [Q]. *)
Definition wp {A} (m : M A) (w : world) (Q : result A -> world -> Prop)
  : Prop :=
  Q (m w).1 (m w).2.

(** [parses m w P]: [m] leaves the world as it is, and either returns a
    value that satisfies [P] or ends in [option_parser.error]. *)
Definition parses {A} (m : M A) (w : world) (P : A -> Prop) : Prop :=
  wp m w (fun r w' =>
            w' = w /\
            match r with
            | Ok a => P a
            | Raise e => exists report, e = OptionParserError report
            end).

(** [m], with [f] applied to what it returns. *)
Definition fmapM {A B} (f : A -> B) (m : M A) : M B :=
  bind m (fun a => ret (f a)).

Definition file_event (e : event) : Prop :=
  match e with
  | Open _ _ | Close _ => True
  | _ => False
  end.

(** What [os.makedirs] reports on a disk, and the disk it leaves. *)
Definition makedirs_outcome (disk : filesystem) (path : string)
    (failure : option errno) (disk' : filesystem) : Prop :=
  os_makedirs path disk = (failure, disk').

(** The lines the parameters are parsed from, and the file events of
    reading them. *)
Definition parameter_lines (opts : Opts.t) (disk : filesystem)
    (lines : list string) (evs : list event) : Prop :=
  if truthy_str (Opts.parameter_fp opts) then
    exists p, Opts.parameter_fp opts = Some p /\
      (files disk !! p) = Some lines /\ (p ∉ unreadable disk) /\
      evs = [Open p true; Close p]
  else lines = [] /\ evs = [].

Definition dispatched (input_fps : list string) (c : workflow_call) : Prop :=
  match input_fps with
  | [input_fp] => c = pick_subsampled_open_reference_otus input_fp (kwargs c)
  | _ => c = iterative_pick_subsampled_open_reference_otus input_fps
               (kwargs c)
  end.

Definition output_dir_exists_message : string :=
  "Output directory already exists. Please choose a different " +:+
  "directory, or force overwrite with -f.".

Definition cannot_open_message (parameter_fp : string) : string :=
  "Can't open parameters file (" +:+ parameter_fp +:+
  "). Does it exist? Do you have read access?".

(** The options with another parameter file. *)
Definition opts_with_parameter_fp (value : option string) (opts : Opts.t)
  : Opts.t :=
  Opts.Build_t (Opts.input_fps opts) (Opts.reference_fp opts)
    (Opts.output_dir opts) (Opts.otu_picking_method opts) value
    (Opts.prefilter_refseqs_fp opts) (Opts.new_ref_set_id opts)
    (Opts.force opts) (Opts.parallel opts) (Opts.jobs_to_start opts)
    (Opts.percent_subsample opts) (Opts.prefilter_percent_id opts)
    (Opts.step1_otu_map_fp opts) (Opts.step1_failures_fasta_fp opts)
    (Opts.suppress_step4 opts) (Opts.min_otu_size opts)
    (Opts.suppress_taxonomy_assignment opts)
    (Opts.suppress_align_and_tree opts) (Opts.verbose opts).

Section Outcomes.
Context (lib : imports).

(** The options a command line is parsed to, when it is accepted. *)
Record accepted (argv : command_line) (disk : filesystem) (opts : Opts.t)
  : Prop := {
  acc_input_fps :
    exists value, arg_input_fps argv = Some value /\
      existing_filepaths lib disk value = Some (Opts.input_fps opts);
  acc_reference_fp : arg_reference_fp argv = Some (Opts.reference_fp opts);
  acc_output_dir : arg_output_dir argv = Some (Opts.output_dir opts);
  acc_otu_picking_method :
    Opts.otu_picking_method opts =
      with_default otu_picking_method_default (arg_otu_picking_method argv);
  acc_otu_picking_method_choice :
    Opts.otu_picking_method opts ∈ otu_picking_method_choices;
  acc_parameter_fp : Opts.parameter_fp opts = arg_parameter_fp argv;
  acc_prefilter_refseqs_fp :
    Opts.prefilter_refseqs_fp opts = arg_prefilter_refseqs_fp argv;
  acc_new_ref_set_id :
    Opts.new_ref_set_id opts =
      with_default new_ref_set_id_default (arg_new_ref_set_id argv);
  acc_force : truthy_flag (Opts.force opts) = arg_force argv;
  acc_parallel : Opts.parallel opts = arg_parallel argv;
  acc_jobs_to_start :
    Opts.jobs_to_start opts =
      with_default (jobs_to_start_workflow_default lib)
                   (arg_jobs_to_start argv);
  acc_percent_subsample :
    Opts.percent_subsample opts =
      with_default percent_subsample_default (arg_percent_subsample argv);
  acc_prefilter_percent_id :
    Opts.prefilter_percent_id opts =
      with_default prefilter_percent_id_default
                   (arg_prefilter_percent_id argv);
  acc_step1_otu_map_fp :
    Opts.step1_otu_map_fp opts = arg_step1_otu_map_fp argv;
  acc_step1_failures_fasta_fp :
    Opts.step1_failures_fasta_fp opts = arg_step1_failures_fasta_fp argv;
  acc_suppress_step4 : Opts.suppress_step4 opts = arg_suppress_step4 argv;
  acc_min_otu_size :
    Opts.min_otu_size opts =
      with_default min_otu_size_default (arg_min_otu_size argv);
  acc_suppress_taxonomy_assignment :
    Opts.suppress_taxonomy_assignment opts =
      arg_suppress_taxonomy_assignment argv;
  acc_suppress_align_and_tree :
    Opts.suppress_align_and_tree opts = arg_suppress_align_and_tree argv;
  acc_verbose : Opts.verbose opts = arg_verbose argv }.

(** The keyword arguments the workflow is called with. *)
Record forwarded (opts : Opts.t) (params : params_t) (kw : Kw.t)
  : Prop := {
  fwd_refseqs_fp : Kw.refseqs_fp kw = Opts.reference_fp opts;
  fwd_output_dir : Kw.output_dir kw = Opts.output_dir opts;
  fwd_percent_subsample :
    Kw.percent_subsample kw = Opts.percent_subsample opts;
  fwd_new_ref_set_id : Kw.new_ref_set_id kw = Opts.new_ref_set_id opts;
  fwd_command_handler : Kw.command_handler kw = call_commands_serially;
  fwd_params : Kw.params kw = params;
  fwd_min_otu_size : Kw.min_otu_size kw = Opts.min_otu_size opts;
  fwd_run_assign_tax :
    Kw.run_assign_tax kw = negb (Opts.suppress_taxonomy_assignment opts);
  fwd_run_align_and_tree :
    Kw.run_align_and_tree kw = negb (Opts.suppress_align_and_tree opts);
  fwd_qiime_config : Kw.qiime_config kw = load_qiime_config lib;
  fwd_prefilter_refseqs_fp :
    Kw.prefilter_refseqs_fp kw = Opts.prefilter_refseqs_fp opts;
  fwd_prefilter_percent_id :
    Kw.prefilter_percent_id kw =
      if PrimFloat.eqb (Opts.prefilter_percent_id opts) 0.0%float
      then None else Some (Opts.prefilter_percent_id opts);
  fwd_step1_otu_map_fp :
    Kw.step1_otu_map_fp kw = Opts.step1_otu_map_fp opts;
  fwd_step1_failures_fasta_fp :
    Kw.step1_failures_fasta_fp kw = Opts.step1_failures_fasta_fp opts;
  fwd_parallel : Kw.parallel kw = Opts.parallel opts;
  fwd_suppress_step4 : Kw.suppress_step4 kw = Opts.suppress_step4 opts;
  fwd_logger : Kw.logger kw = None;
  fwd_picking_methods :
    Opts.otu_picking_method opts = "uclust" /\
    Kw.denovo_otu_picking_method kw = "uclust" /\
    Kw.reference_otu_picking_method kw = "uclust_ref"
    \/
    Opts.otu_picking_method opts = "usearch61" /\
    Kw.denovo_otu_picking_method kw = "usearch61" /\
    Kw.reference_otu_picking_method kw = "usearch61_ref";
  fwd_status_update_callback :
    Kw.status_update_callback kw =
      if Opts.verbose opts then print_to_stdout else no_status_updates }.

(** Reading the parameters failed: the file could not be opened, or the
    parser of the parameters raised on its lines (or on no lines, without
    a file), and the file stays open then. *)
Inductive parameters_failed (opts : Opts.t) (disk : filesystem)
  : exception -> list event -> Prop :=
  | parameters_not_opened p :
      Opts.parameter_fp opts = Some p -> p <> "" ->
      (files disk !! p) = None \/ p ∈ unreadable disk ->
      parameters_failed opts disk (IOError (cannot_open_message p))
        [Open p false]
  | parameters_not_parsed p lines e :
      Opts.parameter_fp opts = Some p -> p <> "" ->
      (files disk !! p) = Some lines -> (p ∉ unreadable disk) ->
      parse_qiime_parameters lib lines = Raise e ->
      parameters_failed opts disk e [Open p true]
  | parameters_default_not_parsed e :
      truthy_str (Opts.parameter_fp opts) = false ->
      parse_qiime_parameters lib [] = Raise e ->
      parameters_failed opts disk e [].

(** The number of jobs is refused: by the item access on the
    configuration, or by the validation. *)
Definition jobs_failed (opts : Opts.t) (params0 : params_t) (e : exception)
  : Prop :=
  qiime_config_getitem lib (load_qiime_config lib) "jobs_to_start" = Raise e
  \/
  exists default_jobs_to_start,
    qiime_config_getitem lib (load_qiime_config lib) "jobs_to_start" =
      Ok default_jobs_to_start /\
    validate_and_set_jobs_to_start lib params0 (Opts.jobs_to_start opts)
      default_jobs_to_start (Opts.parallel opts) = Raise e.

(** Every run of the script on a disk ends in one of five ways: the
    option parser rejects the command line; reading the parameters fails;
    the number of jobs is refused; the output directory cannot be created
    and [-f] is absent; or the workflow is called, and the run ends as the
    workflow ends, on the disk the workflow leaves. *)
Inductive run_outcome (argv : command_line) (disk : filesystem)
  : result unit -> world -> Prop :=
  | run_rejected report :
      run_outcome argv disk (Raise (OptionParserError report))
        {| fs := disk; trace := [] |}
  | run_parameters_failed opts e evs :
      accepted argv disk opts ->
      parameters_failed opts disk e evs ->
      run_outcome argv disk (Raise e) {| fs := disk; trace := evs |}
  | run_jobs_failed opts lines evs params0 e :
      accepted argv disk opts ->
      parameter_lines opts disk lines evs ->
      parse_qiime_parameters lib lines = Ok params0 ->
      jobs_failed opts params0 e ->
      run_outcome argv disk (Raise e) {| fs := disk; trace := evs |}
  | run_output_dir_error opts lines evs params0 default_jobs_to_start params
        e disk' :
      accepted argv disk opts ->
      parameter_lines opts disk lines evs ->
      parse_qiime_parameters lib lines = Ok params0 ->
      qiime_config_getitem lib (load_qiime_config lib) "jobs_to_start" =
        Ok default_jobs_to_start ->
      validate_and_set_jobs_to_start lib params0 (Opts.jobs_to_start opts)
        default_jobs_to_start (Opts.parallel opts) = Ok params ->
      makedirs_outcome disk (Opts.output_dir opts) (Some e) disk' ->
      truthy_flag (Opts.force opts) = false ->
      run_outcome argv disk
        (Raise (OptionParserError (Message output_dir_exists_message)))
        {| fs := disk';
           trace := evs ++ [Makedirs (Opts.output_dir opts) (Some e)] |}
  | run_invoked opts lines evs params0 default_jobs_to_start params
        failure disk' c :
      accepted argv disk opts ->
      parameter_lines opts disk lines evs ->
      parse_qiime_parameters lib lines = Ok params0 ->
      qiime_config_getitem lib (load_qiime_config lib) "jobs_to_start" =
        Ok default_jobs_to_start ->
      validate_and_set_jobs_to_start lib params0 (Opts.jobs_to_start opts)
        default_jobs_to_start (Opts.parallel opts) = Ok params ->
      makedirs_outcome disk (Opts.output_dir opts) failure disk' ->
      (failure <> None -> truthy_flag (Opts.force opts) = true) ->
      forwarded opts params (kwargs c) ->
      dispatched (Opts.input_fps opts) c ->
      run_outcome argv disk (returned (workflow lib c disk'))
        {| fs := write_artifacts (Opts.output_dir opts)
                   (written (workflow lib c disk')) disk';
           trace := evs ++ [Makedirs (Opts.output_dir opts) failure;
                            Invoke c] |}.
End Outcomes.

(** The parameters the workflow is called with: parsed from the parameter
    file, or from no lines, and completed with the number of jobs. *)
Definition configured (lib : imports) (opts : Opts.t) (disk : filesystem)
    (params : params_t) : Prop :=
  exists lines evs params0 default_jobs_to_start,
    parameter_lines opts disk lines evs /\
    parse_qiime_parameters lib lines = Ok params0 /\
    qiime_config_getitem lib (load_qiime_config lib) "jobs_to_start" =
      Ok default_jobs_to_start /\
    validate_and_set_jobs_to_start lib params0 (Opts.jobs_to_start opts)
      default_jobs_to_start (Opts.parallel opts) = Ok params.

(** Two worlds with the same disk and the same workflow calls. *)
Definition similar (w1 w2 : world) : Prop :=
  fs w1 = fs w2 /\ invoked w1 = invoked w2.

(** Two runs with the same result, disk and workflow calls. *)
Definition same_effects {A} (r1 r2 : result A * world) : Prop :=
  r1.1 = r2.1 /\ similar r1.2 r2.2.

(** [m] looks at the disk only, not at what was done before. *)
Definition insensitive {A} (m : M A) : Prop :=
  forall w1 w2, similar w1 w2 -> same_effects (m w1) (m w2).

(** *** The statements that do not hold of the script *)

(** Exactly one of the two Step 1 checkpoint paths is given. *)
Definition incomplete_checkpoint_pair (argv : command_line) : Prop :=
  is_Some (arg_step1_otu_map_fp argv) /\
    arg_step1_failures_fasta_fp argv = None
  \/
  arg_step1_otu_map_fp argv = None /\
    is_Some (arg_step1_failures_fasta_fp argv).

(** The run ended in an error and no workflow was called. *)
Definition aborted_before_workflow (r : result unit * world) : Prop :=
  (exists e, r.1 = Raise e) /\ invoked r.2 = [].

(** C1 as stated, of one run: an incomplete pair is a configuration error,
    reported before any workflow is called. *)
Definition rejects_incomplete_checkpoint_pair
    (lib : imports) (argv : command_line) (disk : filesystem) : Prop :=
  incomplete_checkpoint_pair argv ->
  aborted_before_workflow (run lib argv disk).

(** [0 < p <= 1] *)
Definition in_unit_interval (p : float) : bool :=
  PrimFloat.ltb 0%float p && PrimFloat.leb p 1%float.

(** C6 as stated, of one run: the workflow is only ever called with a
    percent in (0,1]. *)
Definition subsample_percent_checked
    (lib : imports) (argv : command_line) (disk : filesystem) : Prop :=
  forall c, c ∈ invoked (run lib argv disk).2 ->
    in_unit_interval (Kw.percent_subsample (kwargs c)) = true.

(** C10 as stated, of one run: a parameter file that is supplied and
    cannot be opened ends the run in an [IOError]. *)
Definition unopenable_parameter_file_is_IOError
    (lib : imports) (argv : command_line) (disk : filesystem) : Prop :=
  forall p, arg_parameter_fp argv = Some p ->
    (files disk !! p) = None \/ p ∈ unreadable disk ->
    exists msg, (run lib argv disk).1 = Raise (IOError msg).

(** C8 as stated: some configuration has the workflow called with the
    dry-run command handler. *)
Definition dry_run_selectable : Prop :=
  exists lib argv disk c,
    c ∈ invoked (run lib argv disk).2 /\
    Kw.command_handler (kwargs c) = print_commands.

(** ** An environment to run the script in

    One implementation of the imports, and a disk, on which the embedding is
    evaluated. *)
Module Example.

(** [value.split(',')] *)
Fixpoint split_commas (acc s : string) : list string :=
  match s with
  | EmptyString => [acc]
  | String c s' =>
      if Ascii.eqb c (Ascii.ascii_of_nat 44) then acc :: split_commas "" s'
      else split_commas (acc +:+ String c "") s'
  end.

Definition is_file (disk : filesystem) (p : string) : bool :=
  bool_decide (p ∈ dom (files disk)).

(** A workflow that needs its output directory: it writes the OTU map and
    the new reference sequences there, and cannot open its log file when
    the directory is missing. *)
Definition picks_otus (c : workflow_call) (disk : filesystem)
  : workflow_result :=
  let output_dir := Kw.output_dir (kwargs c) in
  if isdir disk output_dir then
    {| returned := Ok tt;
       written := [("final_otu_map.txt", ["New.ReferenceOTU0 s1"]);
                   ("new_refseqs.fna", [">New.ReferenceOTU0"; "ACGT"])] |}
  else
    {| returned := Raise (IOError (artifact_fp output_dir "log.txt"));
       written := [] |}.

Definition lib : imports :=
  {| load_qiime_config := {[ "jobs_to_start" := "1" ]};
     qiime_config_getitem := fun config key => Ok (config !! key);
     jobs_to_start_workflow_default := 1;
     existing_filepath := is_file;
     existing_filepaths := fun disk value =>
       let fps := split_commas "" value in
       if forallb (is_file disk) fps then Some fps else None;
     new_dirpath := fun _ _ => true;
     parse_qiime_parameters := fun lines =>
       Ok (list_to_map ((fun l => (l, ∅)) <$> lines));
     validate_and_set_jobs_to_start :=
       fun params jobs_to_start default_jobs_to_start parallel =>
         if negb (bool_decide
                    (default_jobs_to_start = Some (pretty jobs_to_start)))
            && negb parallel
         then Raise (OptionParserError
                (Message "Passing -O requires that -a is also passed."))
         else Ok (<[ "parallel" :=
                     <[ "jobs_to_start" := Some (pretty jobs_to_start) ]>
                       (params !!! "parallel") ]> params);
     workflow := picks_otus |}.

Definition disk : filesystem :=
  {| directories := {[ ["home"]; ["home"; "ubuntu"];
                       ["home"; "ubuntu"; "ucrss"]; ["proc"] ]};
     files := {[ "/home/ubuntu/seqs1.fna" := [">s1"; "ACGT"];
                 "/home/ubuntu/seqs2.fna" := [">s2"; "TTGA"];
                 "/home/ubuntu/refseqs.fna" := [">r1"; "ACGA"];
                 "/home/ubuntu/step1_otus.txt" := ["r1 s1"];
                 "/home/ubuntu/empty_params.txt" := [];
                 "/home/ubuntu/secret_params.txt" := [] ]};
     unreadable := {[ "/home/ubuntu/secret_params.txt" ]};
     refused := {[ ["proc"; "ucrss"] := EACCES ]} |}.

Definition single : command_line :=
  command "/home/ubuntu/seqs1.fna" "/home/ubuntu/refseqs.fna"
          "/home/ubuntu/out".

(** Two batches: the iterative workflow. *)
Definition batches : command_line :=
  with_input_fps "/home/ubuntu/seqs1.fna,/home/ubuntu/seqs2.fna" single.

(** Resuming with the Step 1 OTU map only. *)
Definition map_only : command_line :=
  with_step1_otu_map_fp "/home/ubuntu/step1_otus.txt" single.

(** Into a directory that exists. *)
Definition into_existing : command_line :=
  command "/home/ubuntu/seqs1.fna" "/home/ubuntu/refseqs.fna"
          "/home/ubuntu/ucrss".

(** Into a directory that cannot be created. *)
Definition into_refused : command_line :=
  command "/home/ubuntu/seqs1.fna" "/home/ubuntu/refseqs.fna"
          "/proc/ucrss".

End Example.

(** ** Further vocabulary *)

Definition with_verbose (argv : command_line) : command_line :=
  Build_command_line (arg_input_fps argv) (arg_reference_fp argv)
    (arg_output_dir argv) (arg_otu_picking_method argv)
    (arg_parameter_fp argv) (arg_prefilter_refseqs_fp argv)
    (arg_new_ref_set_id argv) (arg_force argv) (arg_parallel argv)
    (arg_jobs_to_start argv) (arg_percent_subsample argv)
    (arg_prefilter_percent_id argv) (arg_step1_otu_map_fp argv)
    (arg_step1_failures_fasta_fp argv) (arg_suppress_step4 argv)
    (arg_min_otu_size argv) (arg_suppress_taxonomy_assignment argv)
    (arg_suppress_align_and_tree argv) true.

Definition with_jobs_to_start (value : Z) (argv : command_line)
  : command_line :=
  Build_command_line (arg_input_fps argv) (arg_reference_fp argv)
    (arg_output_dir argv) (arg_otu_picking_method argv)
    (arg_parameter_fp argv) (arg_prefilter_refseqs_fp argv)
    (arg_new_ref_set_id argv) (arg_force argv) (arg_parallel argv)
    (Some value) (arg_percent_subsample argv)
    (arg_prefilter_percent_id argv) (arg_step1_otu_map_fp argv)
    (arg_step1_failures_fasta_fp argv) (arg_suppress_step4 argv)
    (arg_min_otu_size argv) (arg_suppress_taxonomy_assignment argv)
    (arg_suppress_align_and_tree argv) (arg_verbose argv).

(** What a run may do with files: nothing, or one attempt to open the
    parameter file, followed by its closing when its lines were parsed. *)
Definition parameter_file_events (argv : command_line) (evs : list event)
  : Prop :=
  evs = [] \/
  exists p, arg_parameter_fp argv = Some p /\ p <> "" /\
    (evs = [Open p false] \/ evs = [Open p true] \/
     evs = [Open p true; Close p]).

(** What a run does after the files: nothing, [os.makedirs] on the output
    directory, or that and the workflow call. *)
Definition directory_and_workflow_events (argv : command_line)
    (evs : list event) : Prop :=
  evs = [] \/
  exists out failure, arg_output_dir argv = Some out /\
    (evs = [Makedirs out failure] \/
     exists c, evs = [Makedirs out failure; Invoke c]).

(** The options with [-f]. *)
Definition opts_with_force (opts : Opts.t) : Opts.t :=
  Opts.Build_t (Opts.input_fps opts) (Opts.reference_fp opts)
    (Opts.output_dir opts) (Opts.otu_picking_method opts)
    (Opts.parameter_fp opts) (Opts.prefilter_refseqs_fp opts)
    (Opts.new_ref_set_id opts) (Some true) (Opts.parallel opts)
    (Opts.jobs_to_start opts) (Opts.percent_subsample opts)
    (Opts.prefilter_percent_id opts) (Opts.step1_otu_map_fp opts)
    (Opts.step1_failures_fasta_fp opts) (Opts.suppress_step4 opts)
    (Opts.min_otu_size opts) (Opts.suppress_taxonomy_assignment opts)
    (Opts.suppress_align_and_tree opts) (Opts.verbose opts).

(** The values given for the options of type [existing_filepath]. *)
Definition path_options (argv : command_line) : list string :=
  omap id [arg_reference_fp argv; arg_parameter_fp argv;
           arg_prefilter_refseqs_fp argv; arg_step1_otu_map_fp argv;
           arg_step1_failures_fasta_fp argv].

(** Every value given for a path option passes the check of its type. *)
Definition paths_checked (lib : imports) (argv : command_line)
    (disk : filesystem) : Prop :=
  (forall value, arg_input_fps argv = Some value ->
     is_Some (existing_filepaths lib disk value)) /\
  (forall p, p ∈ path_options argv -> existing_filepath lib disk p = true) /\
  (forall out, arg_output_dir argv = Some out ->
     new_dirpath lib disk out = true).

(** Further command lines and environments to run the script in. *)
Module Cases.

(** A parameter file with two lines. *)
Definition disk : filesystem :=
  {| directories := directories Example.disk;
     files := <[ "/home/ubuntu/ucrss_params.txt" :=
                   ["pick_otus:similarity"; "align_seqs:min_length"] ]>
                (files Example.disk);
     unreadable := unreadable Example.disk;
     refused := refused Example.disk |}.

Definition with_params : command_line :=
  with_parameter_fp "/home/ubuntu/ucrss_params.txt" Example.single.

(** An implementation of the imports whose parameter parser refuses every
    line. *)
Definition strict : imports :=
  {| load_qiime_config := load_qiime_config Example.lib;
     qiime_config_getitem := qiime_config_getitem Example.lib;
     jobs_to_start_workflow_default :=
       jobs_to_start_workflow_default Example.lib;
     existing_filepath := existing_filepath Example.lib;
     existing_filepaths := existing_filepaths Example.lib;
     new_dirpath := new_dirpath Example.lib;
     parse_qiime_parameters := fun lines =>
       match lines with
       | [] => Ok ∅
       | line :: _ => Raise (LibraryError "ValueError" line)
       end;
     validate_and_set_jobs_to_start :=
       validate_and_set_jobs_to_start Example.lib;
     workflow := workflow Example.lib |}.

(** An implementation of the imports whose workflow fails on its first
    command, with its log file written. *)
Definition failing : imports :=
  {| load_qiime_config := load_qiime_config Example.lib;
     qiime_config_getitem := qiime_config_getitem Example.lib;
     jobs_to_start_workflow_default :=
       jobs_to_start_workflow_default Example.lib;
     existing_filepath := existing_filepath Example.lib;
     existing_filepaths := existing_filepaths Example.lib;
     new_dirpath := new_dirpath Example.lib;
     parse_qiime_parameters := parse_qiime_parameters Example.lib;
     validate_and_set_jobs_to_start :=
       validate_and_set_jobs_to_start Example.lib;
     workflow := fun c disk =>
       {| returned := Raise (LibraryError "WorkflowError" "pick_otus.py");
          written := [("log.txt", ["pick_otus.py"])] |} |}.

(** Into the directory that exists, written with a trailing slash. *)
Definition into_existing_slash : command_line :=
  command "/home/ubuntu/seqs1.fna" "/home/ubuntu/refseqs.fna"
          "/home/ubuntu//ucrss/".


(** A parameter file that does not exist. *)
Definition missing_params : command_line :=
  with_parameter_fp "/home/ubuntu/missing_params.txt" Example.single.

(** Four jobs, without [-a]. *)
Definition four_jobs : command_line :=
  with_jobs_to_start 4 Example.single.

(** No reference sequences. *)
Definition no_reference : command_line :=
  Build_command_line (Some "/home/ubuntu/seqs1.fna") None
    (Some "/home/ubuntu/out") None None None None false false None None
    None None None false None false false false.

(** The script called without any argument. *)
Definition no_argument : command_line :=
  Build_command_line None None None None None None None false false None
    None None None None false None false false false.

(** A Step 1 failures file that does not exist. *)
Definition missing_failures : command_line :=
  Build_command_line (Some "/home/ubuntu/seqs1.fna")
    (Some "/home/ubuntu/refseqs.fna") (Some "/home/ubuntu/out") None None
    None None false false None None None
    (Some "/home/ubuntu/step1_otus.txt") (Some "/home/ubuntu/failures.fasta")
    false None false false false.

End Cases.

(** ** Reasoning about monadic code *)

Section Wp.
Context {A B : Type}.
Implicit Types (w : world) (Q : result B -> world -> Prop).

Lemma wp_bind (m : M A) (k : A -> M B) w Q :
  wp m w (fun r w1 =>
            match r with
            | Ok a => wp (k a) w1 Q
            | Raise e => Q (Raise e) w1
            end) ->
  wp (bind m k) w Q.
Proof.
  unfold wp, bind. destruct (m w) as [[a|e] w1]; simpl; auto.
Qed.

Lemma wp_ret (b : B) w Q : Q (Ok b) w -> wp (ret b) w Q.
Proof. auto. Qed.

Lemma wp_raise e w Q : Q (Raise e) w -> wp (raise e) w Q.
Proof. auto. Qed.

Lemma wp_lift (r : result B) w Q : Q r w -> wp (lift r) w Q.
Proof. auto. Qed.

Lemma wp_mono (m : M B) w (P Q : result B -> world -> Prop) :
  wp m w P -> (forall r w', P r w' -> Q r w') -> wp m w Q.
Proof. unfold wp. auto. Qed.

Lemma wp_try_except (body : M B) handler w Q :
  wp body w (fun r w1 =>
               match r with
               | Ok b => Q (Ok b) w1
               | Raise e =>
                   match handler e with
                   | Some h => wp h w1 Q
                   | None => Q (Raise e) w1
                   end
               end) ->
  wp (try_except body handler) w Q.
Proof.
  unfold wp, try_except. destruct (body w) as [[b|e] w1]; simpl; auto.
  destruct (handler e); auto.
Qed.

End Wp.

(** ** The option parser *)

Section Parser.
Context (lib : imports).

Lemma parses_bind {A B} (m : M A) (k : A -> M B) w
    (P : A -> Prop) (Q : B -> Prop) :
  parses m w P -> (forall a, P a -> parses (k a) w Q) ->
  parses (bind m k) w Q.
Proof.
  unfold parses, wp, bind. intros Hm Hk.
  destruct (m w) as [[a|e] w1]; simpl in *; destruct Hm as [-> H];
    [by apply Hk | done].
Qed.

Lemma parses_ret {A} (a : A) w (P : A -> Prop) : P a -> parses (ret a) w P.
Proof. by split. Qed.

Lemma parses_error {A} report w (P : A -> Prop) :
  parses (option_parser_error report) w P.
Proof. split; [done | by eexists]. Qed.

Lemma parses_required {A} name (v : option A) w :
  parses (required name v) w (fun a => v = Some a).
Proof.
  destruct v; [by apply parses_ret | apply parses_error].
Qed.

Lemma parses_choice name choices value w :
  parses (choice name choices value) w
         (fun s => s = value /\ value ∈ choices).
Proof.
  unfold choice. case_bool_decide; [by apply parses_ret | apply parses_error].
Qed.

Lemma parses_existing_filepath name w value :
  parses (check_existing_filepath lib name value) w
         (fun s => s = value /\ existing_filepath lib (fs w) value = true).
Proof.
  unfold check_existing_filepath.
  eapply parses_bind with (P := fun d => d = fs w); [by split|].
  intros ? ->. destruct (existing_filepath lib (fs w) value) eqn:E;
    [by apply parses_ret | apply parses_error].
Qed.

Lemma parses_existing_filepaths name w value :
  parses (check_existing_filepaths lib name value) w
         (fun fps => existing_filepaths lib (fs w) value = Some fps).
Proof.
  unfold check_existing_filepaths.
  eapply parses_bind with (P := fun d => d = fs w); [by split|].
  intros ? ->. destruct (existing_filepaths lib (fs w) value) eqn:E;
    [by apply parses_ret | apply parses_error].
Qed.

Lemma parses_new_dirpath name w value :
  parses (check_new_dirpath lib name value) w
         (fun s => s = value /\ new_dirpath lib (fs w) value = true).
Proof.
  unfold check_new_dirpath.
  eapply parses_bind with (P := fun d => d = fs w); [by split|].
  intros ? ->. destruct (new_dirpath lib (fs w) value) eqn:E;
    [by apply parses_ret | apply parses_error].
Qed.

Lemma parses_optional {A} (check : string -> M A) v w
    (P : string -> A -> Prop) :
  (forall s, parses (check s) w (P s)) ->
  parses (optional check v) w
         (fun o => match v with
                   | Some s => exists a, o = Some a /\ P s a
                   | None => o = None
                   end).
Proof.
  intros H. destruct v as [s|]; simpl; [|by apply parses_ret].
  eapply parses_bind; [apply H|]. intros a Ha. apply parses_ret. eauto.
Qed.

Lemma parses_arguments argv w :
  parses (if no_arguments argv then option_parser_exit_usage else ret tt) w
         (fun _ => no_arguments argv = false).
Proof.
  destruct (no_arguments argv);
    [split; [done | by eexists] | by apply parses_ret].
Qed.

Lemma optional_path_eq (v o : option string) (P : string -> Prop) :
  match v with
  | Some s => exists a, o = Some a /\ a = s /\ P s
  | None => o = None
  end -> o = v.
Proof. destruct v; [intros (a & -> & -> & _) | intros ->]; done. Qed.

Lemma parse_command_line_parameters_spec argv w :
  parses (parse_command_line_parameters lib argv) w
         (accepted lib argv (fs w)).
Proof.
  unfold parse_command_line_parameters.
  eapply parses_bind; [apply parses_arguments|]; intros _ _.
  eapply parses_bind;
    [apply parses_optional, parses_existing_filepaths|]; intros i Hi.
  eapply parses_bind;
    [apply parses_optional, parses_existing_filepath|]; intros r Hr.
  eapply parses_bind;
    [apply parses_optional, parses_new_dirpath|]; intros o Ho.
  eapply parses_bind; [apply parses_choice|]; intros m [-> Hm].
  do 4 (eapply parses_bind;
        [apply parses_optional, parses_existing_filepath|];
        intros ? ?%optional_path_eq; subst).
  eapply parses_bind; [apply parses_required|]; intros i' ->.
  eapply parses_bind; [apply parses_required|]; intros r' ->.
  eapply parses_bind; [apply parses_required|]; intros o' ->.
  apply parses_ret.
  split; simpl; try done.
  - destruct (arg_input_fps argv) as [v|]; [|done].
    destruct Hi as (a & [= <-] & Hi). eauto.
  - destruct (arg_reference_fp argv) as [v|]; [|done].
    by destruct Hr as (a & [= <-] & -> & _).
  - destruct (arg_output_dir argv) as [v|]; [|done].
    by destruct Ho as (a & [= <-] & -> & _).
  - by destruct (arg_force argv).
  - by destruct (arg_parallel argv).
  - by destruct (arg_suppress_step4 argv).
  - by destruct (arg_suppress_taxonomy_assignment argv).
  - by destruct (arg_suppress_align_and_tree argv).
Qed.
End Parser.

(** ** The shape of a run *)

Lemma wp_makedirs path w (Q : result unit -> world -> Prop) :
  (forall failure disk',
     makedirs_outcome (fs w) path failure disk' ->
     Q (match failure with Some e => Raise (OSError e) | None => Ok tt end)
       {| fs := disk'; trace := trace w ++ [Makedirs path failure] |}) ->
  wp (makedirs path) w Q.
Proof.
  intros H. unfold wp, makedirs; simpl.
  destruct (os_makedirs path (fs w)) as [failure disk'] eqn:E.
  by apply H.
Qed.

Lemma truthy_str_inv (v : option string) :
  truthy_str v = true -> exists p, v = Some p /\ p <> "".
Proof.
  destruct v as [p|]; [|done]. simpl. intros Hp. exists p. split; [done|].
  intros ->. done.
Qed.

Lemma parameter_lines_file_events opts disk lines evs :
  parameter_lines opts disk lines evs -> Forall file_event evs.
Proof.
  unfold parameter_lines.
  destruct (truthy_str _); [intros (p & _ & _ & _ & ->) | intros [_ ->]];
    by repeat constructor.
Qed.

Section Shape.
Context (lib : imports).

Lemma picking_methods_selected opts :
  Opts.otu_picking_method opts ∈ otu_picking_method_choices ->
  exists denovo reference,
    (if String.eqb (Opts.otu_picking_method opts) "uclust" then
       ret ("uclust", "uclust_ref")
     else if String.eqb (Opts.otu_picking_method opts) "usearch61" then
       ret ("usearch61", "usearch61_ref")
     else
       option_parser_error
         (Message ("Unkown OTU picking method: " +:+
                   Opts.otu_picking_method opts)))
    = ret (denovo, reference) /\
    (Opts.otu_picking_method opts = "uclust" /\
     denovo = "uclust" /\ reference = "uclust_ref"
     \/
     Opts.otu_picking_method opts = "usearch61" /\
     denovo = "usearch61" /\ reference = "usearch61_ref").
Proof.
  unfold otu_picking_method_choices.
  intros [->|[->|[]%elem_of_nil]%elem_of_cons]%elem_of_cons; simpl;
    do 2 eexists; (split; [reflexivity|]); auto.
Qed.

Lemma length_one_inv {A} (l : list A) :
  (length l =? 1)%nat = true -> exists a, l = [a].
Proof.
  destruct l as [|a [|]]; try discriminate. eauto.
Qed.

Lemma length_not_one_dispatched (l : list string) c kw :
  (length l =? 1)%nat = false ->
  c = iterative_pick_subsampled_open_reference_otus l kw ->
  dispatched l c.
Proof.
  intros Hl ->. destruct l as [|a [|]]; try discriminate; reflexivity.
Qed.

Lemma main_outcome argv disk :
  wp (main lib argv) {| fs := disk; trace := [] |}
     (run_outcome lib argv disk).
Proof.
  unfold main.
  apply wp_bind.
  eapply wp_mono; [apply (parse_command_line_parameters_spec lib)|].
  intros [opts|e] w' [-> H]; [|destruct H as [report ->]; constructor].
  simpl in H. cbv zeta.
  destruct (picking_methods_selected opts) as (denovo & reference & -> & Hm);
    [by destruct H|].
  apply wp_bind, wp_ret.
  (* the parameters *)
  apply wp_bind.
  eapply wp_mono with
    (P := fun r w =>
            exists evs, w = {| fs := disk; trace := evs |} /\
              match r with
              | Ok params0 =>
                  exists lines, parameter_lines opts disk lines evs /\
                    parse_qiime_parameters lib lines = Ok params0
              | Raise e => parameters_failed lib opts disk e evs
              end).
  { unfold parameter_lines.
    destruct (truthy_str (Opts.parameter_fp opts)) eqn:Hp.
    - destruct (truthy_str_inv _ Hp) as (p & Hfp & Hne). rewrite Hfp. simpl.
      apply wp_bind, wp_try_except.
      unfold wp, open, lift, close, raise, log; simpl.
      destruct (files disk !! p) as [lines|] eqn:Hl; simpl;
        [case_bool_decide; simpl|];
        try (eexists; split; [reflexivity|];
             apply parameters_not_opened; by auto).
      destruct (parse_qiime_parameters lib lines) as [params0|e] eqn:Hq;
        simpl; eexists; (split; [reflexivity|]).
      + exists lines. split; [|done]. by exists p.
      + by eapply parameters_not_parsed.
    - unfold wp, lift; simpl.
      destruct (parse_qiime_parameters lib []) as [params0|e] eqn:Hq;
        simpl; eexists; (split; [reflexivity|]).
      + by exists [].
      + by apply parameters_default_not_parsed. }
  intros [params0|e] w (evs & -> & Hr);
    [destruct Hr as (lines & Hlines & Hq)
    | by eapply run_parameters_failed].
  (* the number of jobs *)
  apply wp_bind, wp_lift. unfold qiime_config.
  destruct (qiime_config_getitem lib _ _) as [default_jobs_to_start|e]
    eqn:Hg; [|eapply run_jobs_failed; eauto; by left].
  apply wp_bind, wp_lift.
  destruct (validate_and_set_jobs_to_start lib _ _ _ _) as [params|e]
    eqn:Hv; [|eapply run_jobs_failed; eauto; right; eauto].
  (* the output directory *)
  match goal with |- wp (bind _ ?k) _ _ => set (rest := k) end.
  assert (forall failure disk',
    wp (rest tt)
      {| fs := disk';
         trace := evs ++ [Makedirs (Opts.output_dir opts) failure] |}
      (fun r w => exists c,
         r = returned (workflow lib c disk') /\
         w = {| fs := write_artifacts (Opts.output_dir opts)
                        (written (workflow lib c disk')) disk';
                trace := evs ++ [Makedirs (Opts.output_dir opts) failure;
                                 Invoke c] |} /\
         forwarded lib opts params (kwargs c) /\
         dispatched (Opts.input_fps opts) c)) as Hcall.
  { intros failure disk'. subst rest. cbv beta.
    destruct (length (Opts.input_fps opts) =? 1)%nat eqn:Hlen.
    - destruct (length_one_inv _ Hlen) as [input_fp Hfps].
      rewrite Hfps. unfold wp, bind, getitem, invoke, ret, log; simpl.
      eexists. split; [done|]. split; [by rewrite <-app_assoc|].
      split; [by split | done].
    - unfold wp, invoke, log; simpl.
      eexists. split; [done|]. split; [by rewrite <-app_assoc|].
      split; [by split | by eapply length_not_one_dispatched]. }
  clearbody rest.
  apply wp_bind, wp_try_except, wp_makedirs; simpl.
  intros failure disk' Hmk. specialize (Hcall failure disk').
  destruct failure as [e|].
  - destruct (truthy_flag (Opts.force opts)) eqn:Hforce.
    + apply wp_ret. eapply wp_mono; [exact Hcall|].
      intros r w (c & -> & -> & Hfwd & Hdisp).
      by eapply run_invoked.
    + apply wp_raise. by eapply run_output_dir_error.
  - eapply wp_mono; [exact Hcall|].
    intros r w (c & -> & -> & Hfwd & Hdisp).
    by eapply run_invoked.
Qed.
End Shape.

(** ** What a run tells *)

Lemma file_events_not_invoked evs :
  Forall file_event evs ->
  omap (fun e => match e with Invoke c => Some c | _ => None end) evs = [].
Proof.
  induction 1 as [|e evs He _ IH]; [done|].
  destruct e; try done; simpl; by rewrite IH.
Qed.

Lemma parameters_failed_file_events lib opts disk e evs :
  parameters_failed lib opts disk e evs -> Forall file_event evs.
Proof. destruct 1; by repeat constructor. Qed.

Lemma file_events_no_makedirs evs path failure :
  Forall file_event evs -> Makedirs path failure ∉ evs.
Proof.
  intros H Hin. rewrite Forall_forall in H. by apply H in Hin.
Qed.

Lemma is_directory_mono disk disk' place :
  directories disk ⊆ directories disk' ->
  is_directory disk place = true -> is_directory disk' place = true.
Proof.
  unfold is_directory. intros Hsub [H|H]%orb_true_iff; apply orb_true_iff.
  - by left.
  - right. apply bool_decide_eq_true in H. apply bool_decide_eq_true.
    by apply Hsub.
Qed.

Lemma isdir_mono disk disk' path :
  directories disk ⊆ directories disk' ->
  isdir disk path = true -> isdir disk' path = true.
Proof.
  unfold isdir. intros Hsub. rewrite !andb_true_iff, !forallb_forall.
  intros [Hne Hall]. split; [done|].
  intros place Hin. eapply is_directory_mono; eauto.
Qed.

Lemma mkdir_keeps place disk failure disk' :
  mkdir place disk = (failure, disk') ->
  files disk' = files disk /\ directories disk ⊆ directories disk'.
Proof.
  unfold mkdir. intros H.
  repeat case_match; simplify_eq; simpl; split; try done; set_solver.
Qed.

Lemma mkdir_created place disk disk' :
  mkdir place disk = (None, disk') ->
  is_directory disk place = false /\ is_directory disk' place = true.
Proof.
  unfold mkdir. intros H.
  destruct (is_directory disk place) eqn:Hd; simpl in H; [done|].
  repeat case_match; simplify_eq. split; [done|].
  unfold is_directory; simpl. apply orb_true_iff. right.
  apply bool_decide_eq_true. set_solver.
Qed.

Lemma make_missing_keeps places disk failure disk' :
  make_missing places disk = (failure, disk') ->
  files disk' = files disk /\ directories disk ⊆ directories disk'.
Proof.
  revert disk. induction places as [|place places IH]; intros disk; simpl.
  - by intros [= _ ->].
  - destruct (is_directory disk place); [apply IH|].
    destruct (is_regular_file disk place).
    { intros H. injection H as _ <-. by split. }
    destruct (mkdir place disk) as [[e|] disk1] eqn:Hmk.
    + intros H. injection H as _ <-. by eapply mkdir_keeps.
    + intros H. apply IH in H as [Hf Hd].
      apply mkdir_keeps in Hmk as [Hf1 Hd1].
      split; [congruence | by etrans].
Qed.

Lemma make_missing_existing places disk :
  forallb (is_directory disk) places = true ->
  make_missing places disk = (None, disk).
Proof.
  induction places as [|place places IH]; simpl; [done|].
  intros [-> H]%andb_true_iff. auto.
Qed.

Lemma make_missing_made places disk disk' :
  make_missing places disk = (None, disk') ->
  forallb (is_directory disk') places = true.
Proof.
  revert disk. induction places as [|place places IH]; intros disk; simpl;
    [done|].
  destruct (is_directory disk place) eqn:Hd.
  - intros H. rewrite (IH _ H), andb_true_r.
    apply make_missing_keeps in H as [_ H].
    eapply is_directory_mono; eauto.
  - destruct (is_regular_file disk place); [done|].
    destruct (mkdir place disk) as [[e|] disk1] eqn:Hmk; [done|].
    intros H. rewrite (IH _ H), andb_true_r.
    apply mkdir_created in Hmk as [_ Hmk].
    apply make_missing_keeps in H as [_ H].
    eapply is_directory_mono; eauto.
Qed.

Lemma last_removelast {A} (l : list A) x :
  last l = Some x -> l = (removelast l ++ [x])%list.
Proof.
  intros H. destruct (last_Some l x) as [[l' ->] _]; [done|].
  by rewrite removelast_last.
Qed.

Lemma makedirs_outcome_keeps disk path failure disk' :
  makedirs_outcome disk path failure disk' ->
  files disk' = files disk /\ directories disk ⊆ directories disk'.
Proof.
  unfold makedirs_outcome, os_makedirs.
  destruct (last _) as [leaf|]; [|by intros [= _ ->]].
  destruct (make_missing _ disk) as [[e|] disk1] eqn:Hmm.
  - intros [= _ <-]. by eapply make_missing_keeps.
  - intros [Hf Hd]%mkdir_keeps. apply make_missing_keeps in Hmm as [Hf1 Hd1].
    split; [congruence | set_solver].
Qed.

Lemma makedirs_outcome_existing disk path failure disk' :
  makedirs_outcome disk path failure disk' ->
  isdir disk path = true -> failure = Some EEXIST /\ disk' = disk.
Proof.
  unfold makedirs_outcome, os_makedirs, isdir.
  intros H [Hne Hall]%andb_true_iff.
  destruct (last _) as [leaf|] eqn:Hlast.
  - rewrite (last_removelast _ _ Hlast), forallb_app in Hall.
    apply andb_true_iff in Hall as [Hinit Hleaf]. simpl in Hleaf.
    rewrite andb_true_r in Hleaf.
    rewrite (make_missing_existing _ _ Hinit) in H.
    unfold mkdir in H. rewrite Hleaf in H. simpl in H. by simplify_eq.
  - destruct (String.eqb path ""); [done|]. by simplify_eq.
Qed.

Lemma makedirs_outcome_created disk path disk' :
  makedirs_outcome disk path None disk' ->
  isdir disk path = false /\ isdir disk' path = true.
Proof.
  unfold makedirs_outcome, os_makedirs, isdir.
  destruct (last _) as [leaf|] eqn:Hlast; [|done].
  destruct (make_missing _ disk) as [[e|] disk1] eqn:Hmm; [done|].
  intros Hmk.
  assert (String.eqb path "" = false) as ->.
  { destruct (String.eqb_spec path ""); [|done]. by subst. }
  simpl. rewrite (last_removelast _ _ Hlast), !forallb_app. simpl.
  rewrite !andb_true_r.
  pose proof (mkdir_created _ _ _ Hmk) as [Hno Hyes].
  pose proof (mkdir_keeps _ _ _ _ Hmk) as [_ Hsub].
  pose proof (make_missing_keeps _ _ _ _ Hmm) as [_ Hsub1].
  split.
  - apply andb_false_iff. right.
    destruct (is_directory disk leaf) eqn:Hd; [|done].
    by rewrite (is_directory_mono _ _ _ Hsub1 Hd) in Hno.
  - rewrite Hyes, andb_true_r.
    apply make_missing_made in Hmm. rewrite forallb_forall in Hmm |- *.
    intros place Hin. eapply is_directory_mono; eauto.
Qed.

Lemma write_artifacts_keeps output_dir artifacts disk :
  directories disk ⊆ directories (write_artifacts output_dir artifacts disk)
  /\ dom (files disk) ⊆ dom (files (write_artifacts output_dir artifacts disk)).
Proof.
  unfold write_artifacts; simpl. split; [set_solver|].
  rewrite dom_union. set_solver.
Qed.

Section Runs.
Context (lib : imports).

Lemma run_ends argv disk :
  run_outcome lib argv disk (run lib argv disk).1 (run lib argv disk).2.
Proof. apply main_outcome. Qed.

(** A workflow call is the last thing a run does, and the only call. *)
Lemma invoked_inv argv disk c :
  c ∈ invoked (run lib argv disk).2 ->
  exists opts params,
    accepted lib argv disk opts /\
    configured lib opts disk params /\
    forwarded lib opts params (kwargs c) /\
    dispatched (Opts.input_fps opts) c /\
    invoked (run lib argv disk).2 = [c].
Proof.
  pose proof (run_ends argv disk) as H.
  destruct (run lib argv disk) as [r w]; simpl in *.
  unfold invoked.
  destruct H as [report|opts e evs Ha Hevs|opts lines evs params0 e Ha Hl Hq He
                |opts lines evs params0 dflt params e disk' Ha Hl Hq Hg Hv
                   Hmk Hf
                |opts lines evs params0 dflt params failure disk' c'
                   Ha Hl Hq Hg Hv Hmk Hf Hfwd Hd]; simpl.
  - by intros ?%elem_of_nil.
  - rewrite file_events_not_invoked
      by (eapply parameters_failed_file_events; eauto).
    by intros ?%elem_of_nil.
  - rewrite file_events_not_invoked
      by (eapply parameter_lines_file_events; eauto).
    by intros ?%elem_of_nil.
  - rewrite omap_app, file_events_not_invoked
      by (eapply parameter_lines_file_events; eauto).
    by intros ?%elem_of_nil.
  - rewrite omap_app, file_events_not_invoked
      by (eapply parameter_lines_file_events; eauto).
    simpl. intros ->%list_elem_of_singleton.
    exists opts, params. split; [done|].
    split; [by exists lines, evs, params0, dflt|].
    split; [exact Hfwd|]. split; [exact Hd|]. done.
Qed.
End Runs.

(** ** Runs that differ in what was done before *)

Lemma similar_refl w : similar w w.
Proof. by split. Qed.

Lemma same_effects_refl {A} (r : result A * world) : same_effects r r.
Proof. split; [done | apply similar_refl]. Qed.

Section Insensitive.
Context {A B : Type}.

Lemma insensitive_ret (a : A) : insensitive (ret a).
Proof. by intros w1 w2 H. Qed.

Lemma insensitive_raise e : insensitive (@raise A e).
Proof. by intros w1 w2 H. Qed.

Lemma insensitive_lift (r : result A) : insensitive (lift r).
Proof. by intros w1 w2 H. Qed.

Lemma same_effects_bind (m1 m2 : M A) (k : A -> M B) w1 w2 :
  same_effects (m1 w1) (m2 w2) ->
  (forall a, insensitive (k a)) ->
  same_effects (bind m1 k w1) (bind m2 k w2).
Proof.
  unfold bind. intros [Hr Hw] Hk.
  destruct (m1 w1) as [[a|e] w1'], (m2 w2) as [[a'|e'] w2'];
    simpl in *; try discriminate.
  - injection Hr as <-. by apply Hk.
  - injection Hr as <-. by split.
Qed.

Lemma insensitive_bind (m : M A) (k : A -> M B) :
  insensitive m -> (forall a, insensitive (k a)) -> insensitive (bind m k).
Proof. intros Hm Hk w1 w2 H. apply same_effects_bind; auto. Qed.

Lemma insensitive_try_except (body : M A) handler :
  insensitive body ->
  (forall e h, handler e = Some h -> insensitive h) ->
  insensitive (try_except body handler).
Proof.
  intros Hb Hh w1 w2 H. unfold try_except.
  destruct (Hb w1 w2 H) as [Hr Hw].
  destruct (body w1) as [[a|e] w1'], (body w2) as [[a'|e'] w2'];
    simpl in *; try discriminate.
  - by split.
  - injection Hr as <-. destruct (handler e) as [h|] eqn:E.
    + by apply (Hh e h E).
    + by split.
Qed.
End Insensitive.

Lemma insensitive_makedirs path : insensitive (makedirs path).
Proof.
  intros w1 w2 [Hfs Hinv]. unfold makedirs. rewrite Hfs.
  split; [done|]. split; [done|].
  unfold invoked in *; simpl. by rewrite !omap_app, Hinv.
Qed.

Lemma insensitive_invoke lib c : insensitive (invoke lib c).
Proof.
  intros w1 w2 [Hfs Hinv]. unfold invoke. rewrite Hfs.
  split; [done|]. split; [done|].
  unfold invoked in *; simpl. by rewrite !omap_app, Hinv.
Qed.

Lemma insensitive_getitem {A} (l : list A) i : insensitive (getitem l i).
Proof.
  unfold getitem. destruct (l !! i);
    [apply insensitive_ret | apply insensitive_raise].
Qed.

(** ** The parser on a command line with one more parameter file *)

Lemma bind_ret_l {A B} (a : A) (k : A -> M B) w : bind (ret a) k w = k a w.
Proof. reflexivity. Qed.

Lemma bind_Ok_l {A B} (m : M A) (k : A -> M B) w a :
  m w = (Ok a, w) -> bind m k w = k a w.
Proof. unfold bind. by intros ->. Qed.

Lemma bind_ext_at {A B} (m1 m2 : M A) (k : A -> M B) w :
  m1 w = m2 w -> bind m1 k w = bind m2 k w.
Proof. unfold bind. by intros ->. Qed.

Lemma bind_assoc {A B C} (m : M A) (k1 : A -> M B) (k2 : B -> M C) w :
  bind (bind m k1) k2 w = bind m (fun a => bind (k1 a) k2) w.
Proof. unfold bind. by destruct (m w) as [[a|e] w']. Qed.

Lemma fmapM_bind {A B C} (f : B -> C) (m : M A) (k : A -> M B) w :
  fmapM f (bind m k) w = bind m (fun a => fmapM f (k a)) w.
Proof.
  unfold fmapM, bind. by destruct (m w) as [[a|e] w'].
Qed.

Lemma parses_bind_eq {A B} (m : M A) (k1 k2 : A -> M B) w (P : A -> Prop) :
  parses m w P ->
  (forall a, P a -> k1 a w = k2 a w) ->
  bind m k1 w = bind m k2 w.
Proof.
  unfold parses, wp, bind. intros H Hk.
  destruct (m w) as [[a|e] w']; simpl in *; destruct H as [-> H]; auto.
Qed.

Lemma same_effects_bind_parses {A B} (m : M A) (k1 k2 : A -> M B) w
    (P : A -> Prop) :
  parses m w P ->
  (forall a, P a -> same_effects (k1 a w) (k2 a w)) ->
  same_effects (bind m k1 w) (bind m k2 w).
Proof.
  unfold parses, wp, bind. intros H Hk.
  destruct (m w) as [[a|e] w']; simpl in *; destruct H as [-> H];
    [by apply Hk | apply same_effects_refl].
Qed.

Lemma no_arguments_with_parameter_fp p argv :
  no_arguments (with_parameter_fp p argv) = false.
Proof.
  unfold no_arguments; simpl. by repeat (rewrite andb_false_r; simpl).
Qed.

Lemma parse_with_parameter_fp lib argv p w :
  no_arguments argv = false ->
  arg_parameter_fp argv = None ->
  existing_filepath lib (fs w) p = true ->
  parse_command_line_parameters lib (with_parameter_fp p argv) w =
    fmapM (opts_with_parameter_fp (Some p))
          (parse_command_line_parameters lib argv) w.
Proof.
  intros Hargs Hnone Hex. unfold parse_command_line_parameters.
  rewrite no_arguments_with_parameter_fp, Hargs, fmapM_bind, !bind_ret_l.
  destruct argv; simpl in *; subst.
  rewrite fmapM_bind.
  eapply parses_bind_eq;
    [apply parses_optional, parses_existing_filepaths|]; intros ? _.
  rewrite fmapM_bind.
  eapply parses_bind_eq;
    [apply parses_optional, parses_existing_filepath|]; intros ? _.
  rewrite fmapM_bind.
  eapply parses_bind_eq;
    [apply parses_optional, parses_new_dirpath|]; intros ? _.
  rewrite fmapM_bind.
  eapply parses_bind_eq; [apply parses_choice|]; intros ? _.
  rewrite fmapM_bind.
  change (optional (check_existing_filepath lib "--parameter_fp") None)
    with (@ret (option string) None).
  rewrite bind_ret_l.
  rewrite (bind_Ok_l
             (bind (check_existing_filepath lib "--parameter_fp" p)
                   (fun a => ret (Some a))) _ w (Some p))
    by (unfold check_existing_filepath, get_fs, bind; simpl; by rewrite Hex).
  do 3 (rewrite fmapM_bind;
        eapply parses_bind_eq;
          [apply parses_optional, parses_existing_filepath|]; intros ? _).
  do 3 (rewrite fmapM_bind;
        eapply parses_bind_eq; [apply parses_required|]; intros ? _).
  reflexivity.
Qed.

Lemma accepted_output_dir lib argv disk opts out :
  accepted lib argv disk opts -> arg_output_dir argv = Some out ->
  Opts.output_dir opts = out.
Proof. intros Ha Hout. pose proof (acc_output_dir _ _ _ _ Ha). congruence. Qed.

Lemma exit_status_nonzero e : exit_status e <> 0.
Proof. destruct e as [| | |[]|]; done. Qed.

(** ** The checkpoint pair *)

(** C1, as the script behaves: the two Step 1 checkpoint options are not
    checked against each other.  Every workflow call receives
    [step1_otu_map_fp] and [step1_failures_fasta_fp] exactly as they were
    given on the command line, [None] for an absent one. *)
Theorem checkpoint_paths_forwarded_as_given lib argv disk c :
  c ∈ invoked (run lib argv disk).2 ->
  Kw.step1_otu_map_fp (kwargs c) = arg_step1_otu_map_fp argv /\
  Kw.step1_failures_fasta_fp (kwargs c) = arg_step1_failures_fasta_fp argv.
Proof.
  intros (opts & params & Ha & _ & Hfwd & _)%invoked_inv.
  rewrite (fwd_step1_otu_map_fp _ _ _ _ Hfwd),
    (fwd_step1_failures_fasta_fp _ _ _ _ Hfwd).
  split; apply Ha.
Qed.

Lemma checkpoint_paths_forwarded_as_given_witness :
  exists c,
    c ∈ invoked (run Example.lib Example.map_only Example.disk).2 /\
    Kw.step1_otu_map_fp (kwargs c) = Some "/home/ubuntu/step1_otus.txt" /\
    Kw.step1_failures_fasta_fp (kwargs c) = None.
Proof.
  assert (exists c,
    invoked (run Example.lib Example.map_only Example.disk).2 = [c])
    as [c Hc] by (vm_compute; eauto).
  assert (c ∈ invoked (run Example.lib Example.map_only Example.disk).2)
    as Hin by (rewrite Hc; apply list_elem_of_singleton; reflexivity).
  exists c. split; [exact Hin|].
  exact (checkpoint_paths_forwarded_as_given _ _ _ c Hin).
Defined.

(** C1, as stated, fails: with only [--step1_otu_map_fp] given, the run
    ends normally and has called the workflow. *)
Lemma incomplete_checkpoint_pair_not_rejected :
  ~ rejects_incomplete_checkpoint_pair
      Example.lib Example.map_only Example.disk.
Proof.
  intros H.
  destruct H as [[e He] _].
  - left. split; [by eexists | reflexivity].
  - vm_compute in He. discriminate He.
Qed.

(** ** The output directory *)

(** C2: when the output directory exists and [-f] is absent, the run ends
    in an error with a non-zero exit status, no workflow is called and the
    disk is left as it was; the error is the one about the output directory
    as soon as the run gets to creating it.  With [-f], a run that gets to
    creating the directory goes on: its next and last step is the call of
    the workflow on that same directory, on the disk as it was; the run
    ends as the workflow ends, on the disk the workflow leaves. *)
Theorem existing_output_dir_needs_force lib argv disk out :
  arg_output_dir argv = Some out ->
  isdir disk out = true ->
  let r := run lib argv disk in
  if arg_force argv then
    Makedirs out (Some EEXIST) ∈ trace r.2 ->
    exists c evs,
      trace r.2 = (evs ++ [Makedirs out (Some EEXIST); Invoke c])%list /\
      invoked r.2 = [c] /\
      Kw.output_dir (kwargs c) = out /\
      r.1 = returned (workflow lib c disk) /\
      fs r.2 = write_artifacts out (written (workflow lib c disk)) disk
  else
    (exists e, r.1 = Raise e /\ exit_status e <> 0) /\
    invoked r.2 = [] /\
    fs r.2 = disk /\
    (Makedirs out (Some EEXIST) ∈ trace r.2 ->
     r.1 = Raise (OptionParserError (Message output_dir_exists_message))).
Proof.
  intros Hout Hdir r. subst r.
  pose proof (run_ends lib argv disk) as H.
  destruct (run lib argv disk) as [r w]; simpl in *.
  unfold invoked.
  destruct H as [report|opts e evs Ha Hevs|opts lines evs params0 e Ha Hl Hq He
                |opts lines evs params0 dflt params e disk' Ha Hl Hq Hg Hv
                   Hmk Hf
                |opts lines evs params0 dflt params failure disk' c
                   Ha Hl Hq Hg Hv Hmk Hf Hfwd Hd]; simpl.
  - destruct (arg_force argv).
    + by intros ?%elem_of_nil.
    + split; [eexists; split; [done|apply exit_status_nonzero]|].
      split; [done|]. split; [done|]. by intros ?%elem_of_nil.
  - apply parameters_failed_file_events in Hevs.
    destruct (arg_force argv).
    + by intros ?%file_events_no_makedirs.
    + split; [eexists; split; [done|apply exit_status_nonzero]|].
      split; [by apply file_events_not_invoked|]. split; [done|].
      by intros ?%file_events_no_makedirs.
  - apply parameter_lines_file_events in Hl.
    destruct (arg_force argv).
    + by intros ?%file_events_no_makedirs.
    + split; [eexists; split; [done|apply exit_status_nonzero]|].
      split; [by apply file_events_not_invoked|]. split; [done|].
      by intros ?%file_events_no_makedirs.
  - apply parameter_lines_file_events in Hl.
    rewrite (accepted_output_dir _ _ _ _ _ Ha Hout) in *.
    destruct (makedirs_outcome_existing _ _ _ _ Hmk Hdir) as [_ ->].
    rewrite <-(acc_force _ _ _ _ Ha), Hf.
    split; [by eexists|].
    rewrite omap_app, file_events_not_invoked by done. done.
  - apply parameter_lines_file_events in Hl.
    rewrite (accepted_output_dir _ _ _ _ _ Ha Hout) in *.
    destruct (makedirs_outcome_existing _ _ _ _ Hmk Hdir) as [-> ->].
    rewrite <-(acc_force _ _ _ _ Ha), Hf by done.
    intros _. exists c, evs. split; [done|].
    rewrite omap_app, file_events_not_invoked by done.
    split; [done|]. split; [|done].
    rewrite (fwd_output_dir _ _ _ _ Hfwd).
    by apply (accepted_output_dir _ _ _ _ _ Ha).
Qed.

Lemma existing_output_dir_needs_force_witness :
  let r := run Example.lib Example.into_existing Example.disk in
  let r' := run Cases.failing (with_force Example.into_existing)
              Example.disk in
  let r'' := run Example.lib Cases.into_existing_slash Example.disk in
  (r.1 = Raise (OptionParserError (Message output_dir_exists_message)) /\
   invoked r.2 = [] /\ fs r.2 = Example.disk) /\
  (exists c, invoked r'.2 = [c] /\
     Kw.output_dir (kwargs c) = "/home/ubuntu/ucrss" /\
     r'.1 = returned (workflow Cases.failing c Example.disk)) /\
  (r''.1 = Raise (OptionParserError (Message output_dir_exists_message)) /\
   invoked r''.2 = [] /\ fs r''.2 = Example.disk).
Proof.
  assert (isdir Example.disk "/home/ubuntu/ucrss" = true) as Hdir
    by reflexivity.
  assert (isdir Example.disk "/home/ubuntu//ucrss/" = true) as Hdir'
    by reflexivity.
  split; [|split].
  - destruct (existing_output_dir_needs_force Example.lib
                Example.into_existing Example.disk "/home/ubuntu/ucrss"
                eq_refl Hdir) as (_ & Hinv & Hfs & Herr).
    split; [|by split].
    apply Herr. vm_compute. apply list_elem_of_singleton. reflexivity.
  - destruct (existing_output_dir_needs_force Cases.failing
                (with_force Example.into_existing) Example.disk
                "/home/ubuntu/ucrss" eq_refl Hdir)
      as (c & evs & _ & Hinv & Hout & Hr & _).
    { vm_compute. apply list_elem_of_here. }
    exists c. by split.
  - destruct (existing_output_dir_needs_force Example.lib
                Cases.into_existing_slash Example.disk
                "/home/ubuntu//ucrss/" eq_refl Hdir')
      as (_ & Hinv & Hfs & Herr).
    split; [|by split].
    apply Herr. vm_compute. apply list_elem_of_singleton. reflexivity.
Defined.

(** ** The OTU picking method *)

Lemma rejected_by_parser lib argv w (k : Opts.t -> M unit) :
  (forall opts, accepted lib argv (fs w) opts -> False) ->
  exists report,
    parse_command_line_parameters lib argv w =
      (Raise (OptionParserError report), w) /\
    bind (parse_command_line_parameters lib argv) k w =
      (Raise (OptionParserError report), w).
Proof.
  intros Hno.
  pose proof (parse_command_line_parameters_spec lib argv w) as H.
  unfold parses, wp, bind in *.
  destruct (parse_command_line_parameters lib argv w) as [[opts|e] w'];
    simpl in H; destruct H as [-> H].
  - by apply Hno in H.
  - destruct H as [report ->]. by exists report.
Qed.

(** C3: the method given by [-m] ([uclust] when absent) selects the pair of
    de novo and reference methods the workflow is called with, and any value
    other than [uclust] and [usearch61] is rejected by the option parser,
    before anything is done. *)
Theorem otu_picking_method_closed_enumeration lib argv disk :
  let method :=
    with_default otu_picking_method_default (arg_otu_picking_method argv) in
  (method = "uclust" ->
   forall c, c ∈ invoked (run lib argv disk).2 ->
     Kw.denovo_otu_picking_method (kwargs c) = "uclust" /\
     Kw.reference_otu_picking_method (kwargs c) = "uclust_ref") /\
  (method = "usearch61" ->
   forall c, c ∈ invoked (run lib argv disk).2 ->
     Kw.denovo_otu_picking_method (kwargs c) = "usearch61" /\
     Kw.reference_otu_picking_method (kwargs c) = "usearch61_ref") /\
  (method <> "uclust" -> method <> "usearch61" ->
   exists report,
     parse_command_line_parameters lib argv {| fs := disk; trace := [] |} =
       (Raise (OptionParserError report), {| fs := disk; trace := [] |}) /\
     run lib argv disk =
       (Raise (OptionParserError report), {| fs := disk; trace := [] |})).
Proof.
  intros method. subst method. split; [|split].
  - intros Hm c (opts & params & Ha & _ & Hfwd & _)%invoked_inv.
    rewrite <-(acc_otu_picking_method _ _ _ _ Ha) in Hm.
    destruct (fwd_picking_methods _ _ _ _ Hfwd)
      as [(_ & -> & ->)|(? & _)]; [done | congruence].
  - intros Hm c (opts & params & Ha & _ & Hfwd & _)%invoked_inv.
    rewrite <-(acc_otu_picking_method _ _ _ _ Ha) in Hm.
    destruct (fwd_picking_methods _ _ _ _ Hfwd)
      as [(? & _)|(_ & -> & ->)]; [congruence | done].
  - intros Hu Hs. unfold run, main.
    apply (rejected_by_parser lib argv {| fs := disk; trace := [] |}).
    intros opts Ha.
    pose proof (acc_otu_picking_method_choice _ _ _ _ Ha) as Hin.
    rewrite (acc_otu_picking_method _ _ _ _ Ha) in Hin.
    unfold otu_picking_method_choices in Hin.
    apply elem_of_cons in Hin as [?|Hin]; [done|].
    apply elem_of_cons in Hin as [?|Hin]; [done|].
    by apply elem_of_nil in Hin.
Qed.

Lemma otu_picking_method_closed_enumeration_witness :
  (exists c,
     c ∈ invoked (run Example.lib
                    (with_otu_picking_method "usearch61" Example.single)
                    Example.disk).2 /\
     Kw.denovo_otu_picking_method (kwargs c) = "usearch61" /\
     Kw.reference_otu_picking_method (kwargs c) = "usearch61_ref") /\
  (exists report,
     run Example.lib (with_otu_picking_method "cdhit" Example.single)
         Example.disk =
       (Raise (OptionParserError report),
        {| fs := Example.disk; trace := [] |})).
Proof.
  split.
  - assert (exists c,
      invoked (run Example.lib
                 (with_otu_picking_method "usearch61" Example.single)
                 Example.disk).2 = [c]) as [c Hc] by (vm_compute; eauto).
    assert (c ∈ invoked (run Example.lib
                 (with_otu_picking_method "usearch61" Example.single)
                 Example.disk).2) as Hin
      by (rewrite Hc; apply list_elem_of_here).
    exists c. split; [exact Hin|].
    exact (proj1 (proj2 (otu_picking_method_closed_enumeration Example.lib
             (with_otu_picking_method "usearch61" Example.single)
             Example.disk)) eq_refl c Hin).
  - destruct (proj2 (proj2 (otu_picking_method_closed_enumeration Example.lib
               (with_otu_picking_method "cdhit" Example.single)
               Example.disk))) as (report & _ & Hrun).
    + simpl. discriminate.
    + simpl. discriminate.
    + by exists report.
Defined.

(** ** The prefilter *)

(** C4: the workflow is called with no prefilter identity exactly when
    [--prefilter_percent_id] (0.60 when absent) equals [0.0], and with the
    value itself otherwise. *)
Theorem prefilter_disabled_iff_zero lib argv disk c :
  c ∈ invoked (run lib argv disk).2 ->
  let p :=
    with_default prefilter_percent_id_default
                 (arg_prefilter_percent_id argv) in
  (Kw.prefilter_percent_id (kwargs c) = None <->
   PrimFloat.eqb p 0%float = true) /\
  (PrimFloat.eqb p 0%float = false ->
   Kw.prefilter_percent_id (kwargs c) = Some p).
Proof.
  intros (opts & params & Ha & _ & Hfwd & _)%invoked_inv p. subst p.
  rewrite (fwd_prefilter_percent_id _ _ _ _ Hfwd),
    (acc_prefilter_percent_id _ _ _ _ Ha).
  destruct (PrimFloat.eqb _ _); by split.
Qed.

Lemma prefilter_disabled_iff_zero_witness :
  (exists c,
     c ∈ invoked (run Example.lib
                    (with_prefilter_percent_id 0%float Example.single)
                    Example.disk).2 /\
     Kw.prefilter_percent_id (kwargs c) = None) /\
  (exists c,
     c ∈ invoked (run Example.lib Example.single Example.disk).2 /\
     Kw.prefilter_percent_id (kwargs c) = Some 0.60%float).
Proof.
  split.
  - assert (exists c,
      invoked (run Example.lib
                 (with_prefilter_percent_id 0%float Example.single)
                 Example.disk).2 = [c]) as [c Hc] by (vm_compute; eauto).
    assert (c ∈ invoked (run Example.lib
                 (with_prefilter_percent_id 0%float Example.single)
                 Example.disk).2) as Hin
      by (rewrite Hc; apply list_elem_of_here).
    exists c. split; [exact Hin|].
    apply (prefilter_disabled_iff_zero _ _ _ c Hin). reflexivity.
  - assert (exists c,
      invoked (run Example.lib Example.single Example.disk).2 = [c])
      as [c Hc] by (vm_compute; eauto).
    assert (c ∈ invoked (run Example.lib Example.single Example.disk).2)
      as Hin by (rewrite Hc; apply list_elem_of_here).
    exists c. split; [exact Hin|].
    apply (prefilter_disabled_iff_zero _ _ _ c Hin). reflexivity.
Defined.

(** ** The dispatch on the number of input files *)

Lemma configured_unique lib opts opts' disk params params' :
  configured lib opts disk params ->
  configured lib opts' disk params' ->
  Opts.parameter_fp opts = Opts.parameter_fp opts' ->
  Opts.jobs_to_start opts = Opts.jobs_to_start opts' ->
  Opts.parallel opts = Opts.parallel opts' ->
  params = params'.
Proof.
  intros (l & evs & p0 & d & Hl & Hq & Hg & Hv)
         (l' & evs' & p0' & d' & Hl' & Hq' & Hg' & Hv') Hfp Hj Hp.
  assert (l = l') as <-.
  { unfold parameter_lines in *. rewrite <-Hfp in Hl'.
    destruct (truthy_str _).
    - destruct Hl as (p & Hp1 & Hf1 & _), Hl' as (p' & Hp2 & Hf2 & _).
      congruence.
    - destruct Hl as [-> _], Hl' as [-> _]. done. }
  congruence.
Qed.

Lemma kwargs_independent_of_input_fps lib argv disk value
    opts opts' params kw kw' :
  accepted lib argv disk opts ->
  accepted lib (with_input_fps value argv) disk opts' ->
  forwarded lib opts params kw ->
  forwarded lib opts' params kw' ->
  kw = kw'.
Proof.
  intros Ha Ha' Hf Hf'.
  assert (Opts.prefilter_percent_id opts' = Opts.prefilter_percent_id opts)
    as Hpre by (by rewrite (acc_prefilter_percent_id _ _ _ _ Ha),
                  (acc_prefilter_percent_id _ _ _ _ Ha')).
  assert (Opts.verbose opts' = Opts.verbose opts) as Hverb
    by (by rewrite (acc_verbose _ _ _ _ Ha), (acc_verbose _ _ _ _ Ha')).
  destruct kw, kw', Hf, Hf', Ha, Ha'; simpl in *.
  rewrite Hpre, Hverb in *.
  assert (denovo_otu_picking_method = denovo_otu_picking_method0 /\
          reference_otu_picking_method = reference_otu_picking_method0)
    as [-> ->].
  { destruct fwd_picking_methods0 as [(? & -> & ->)|(? & -> & ->)],
             fwd_picking_methods1 as [(? & -> & ->)|(? & -> & ->)];
      try done; congruence. }
  f_equal; congruence.
Qed.

(** C5: a run on one input file calls the single-input workflow on that
    file, a run on two or more calls the iterative workflow on the whole
    list, in the order given; and the keyword arguments of the call do not
    depend on the input files. *)
Theorem driver_dispatch_by_input_count lib argv disk c :
  c ∈ invoked (run lib argv disk).2 ->
  (exists value input_fps,
     arg_input_fps argv = Some value /\
     existing_filepaths lib disk value = Some input_fps /\
     (forall input_fp, input_fps = [input_fp] ->
        c = pick_subsampled_open_reference_otus input_fp (kwargs c)) /\
     ((2 <= length input_fps)%nat ->
        c = iterative_pick_subsampled_open_reference_otus input_fps
              (kwargs c))) /\
  (forall value' c',
     c' ∈ invoked (run lib (with_input_fps value' argv) disk).2 ->
     kwargs c' = kwargs c).
Proof.
  intros (opts & params & Ha & Hc & Hfwd & Hd & _)%invoked_inv. split.
  - destruct (acc_input_fps _ _ _ _ Ha) as (value & Hv & Hfps).
    exists value, (Opts.input_fps opts). split; [done|]. split; [done|].
    unfold dispatched in Hd. split.
    + intros input_fp Heq. by rewrite Heq in Hd.
    + intros Hlen. destruct (Opts.input_fps opts) as [|a [|b l]]; try done;
        simpl in Hlen; lia.
  - intros value' c' (opts' & params' & Ha' & Hc' & Hfwd' & _)%invoked_inv.
    assert (params = params') as <-.
    { eapply configured_unique; [exact Hc | exact Hc' | | |].
      - by rewrite (acc_parameter_fp _ _ _ _ Ha),
          (acc_parameter_fp _ _ _ _ Ha').
      - by rewrite (acc_jobs_to_start _ _ _ _ Ha),
          (acc_jobs_to_start _ _ _ _ Ha').
      - by rewrite (acc_parallel _ _ _ _ Ha), (acc_parallel _ _ _ _ Ha'). }
    symmetry.
    exact (kwargs_independent_of_input_fps lib argv disk value' opts opts'
             params _ _ Ha Ha' Hfwd Hfwd').
Qed.

Lemma driver_dispatch_by_input_count_witness :
  exists c c',
    c ∈ invoked (run Example.lib Example.single Example.disk).2 /\
    c' ∈ invoked (run Example.lib Example.batches Example.disk).2 /\
    c = pick_subsampled_open_reference_otus "/home/ubuntu/seqs1.fna"
          (kwargs c) /\
    c' = iterative_pick_subsampled_open_reference_otus
           ["/home/ubuntu/seqs1.fna"; "/home/ubuntu/seqs2.fna"] (kwargs c) /\
    kwargs c' = kwargs c.
Proof.
  assert (exists c,
    invoked (run Example.lib Example.single Example.disk).2 = [c])
    as [c Hc] by (vm_compute; eauto).
  assert (c ∈ invoked (run Example.lib Example.single Example.disk).2)
    as Hin by (rewrite Hc; apply list_elem_of_here).
  assert (exists c,
    invoked (run Example.lib Example.batches Example.disk).2 = [c])
    as [c' Hc'] by (vm_compute; eauto).
  assert (c' ∈ invoked (run Example.lib Example.batches Example.disk).2)
    as Hin' by (rewrite Hc'; apply list_elem_of_here).
  exists c, c'. split; [exact Hin|]. split; [exact Hin'|].
  destruct (driver_dispatch_by_input_count _ _ _ c Hin)
    as ((v & fps & Hv & Hfps & Hone & _) & Hkw).
  destruct (driver_dispatch_by_input_count _ _ _ c' Hin')
    as ((v' & fps' & Hv' & Hfps' & _ & Hmany) & _).
  injection Hv as <-. injection Hv' as <-.
  vm_compute in Hfps. injection Hfps as <-.
  vm_compute in Hfps'. injection Hfps' as <-.
  specialize (Hkw _ c' Hin').
  split; [by apply Hone|]. split; [|exact Hkw].
  rewrite <-Hkw. apply Hmany. simpl. lia.
Defined.

(** ** The subsample percent *)

(** C6, as the script behaves: [--percent_subsample] is read as a float and
    not checked against any range.  The workflow is called with exactly the
    value given, [0.001] when the option is absent. *)
Theorem percent_subsample_forwarded_unchecked lib argv disk c :
  c ∈ invoked (run lib argv disk).2 ->
  Kw.percent_subsample (kwargs c) =
    with_default percent_subsample_default (arg_percent_subsample argv).
Proof.
  intros (opts & params & Ha & _ & Hfwd & _)%invoked_inv.
  rewrite (fwd_percent_subsample _ _ _ _ Hfwd). apply Ha.
Qed.

Lemma percent_subsample_forwarded_unchecked_witness :
  exists c,
    c ∈ invoked (run Example.lib
                   (with_percent_subsample 2%float Example.single)
                   Example.disk).2 /\
    Kw.percent_subsample (kwargs c) = 2%float.
Proof.
  assert (exists c,
    invoked (run Example.lib (with_percent_subsample 2%float Example.single)
               Example.disk).2 = [c]) as [c Hc] by (vm_compute; eauto).
  assert (c ∈ invoked (run Example.lib
                         (with_percent_subsample 2%float Example.single)
                         Example.disk).2) as Hin
    by (rewrite Hc; apply list_elem_of_here).
  exists c. split; [exact Hin|].
  exact (percent_subsample_forwarded_unchecked _ _ _ c Hin).
Defined.

(** C6, as stated, fails: with [-s 0] and with [-s 2] the workflow is
    called, with a percent outside (0,1]. *)
Lemma percent_subsample_out_of_range_accepted :
  ~ subsample_percent_checked Example.lib
      (with_percent_subsample 0%float Example.single) Example.disk /\
  ~ subsample_percent_checked Example.lib
      (with_percent_subsample 2%float Example.single) Example.disk.
Proof.
  split; intros H.
  - assert (exists c,
      invoked (run Example.lib (with_percent_subsample 0%float Example.single)
                 Example.disk).2 = [c]) as [c Hc] by (vm_compute; eauto).
    specialize (H c). rewrite Hc in H. specialize (H (list_elem_of_here _ _)).
    vm_compute in Hc. injection Hc as <-. vm_compute in H. discriminate H.
  - assert (exists c,
      invoked (run Example.lib (with_percent_subsample 2%float Example.single)
                 Example.disk).2 = [c]) as [c Hc] by (vm_compute; eauto).
    specialize (H c). rewrite Hc in H. specialize (H (list_elem_of_here _ _)).
    vm_compute in Hc. injection Hc as <-. vm_compute in H. discriminate H.
Qed.

(** ** Taxonomy assignment, alignment and tree *)

(** C7: the workflow is told to assign taxonomy exactly when
    [--suppress_taxonomy_assignment] is absent, and to align and build the
    tree exactly when [--suppress_align_and_tree] is absent. *)
Theorem suppress_flags_negated lib argv disk c :
  c ∈ invoked (run lib argv disk).2 ->
  Kw.run_assign_tax (kwargs c) =
    negb (arg_suppress_taxonomy_assignment argv) /\
  Kw.run_align_and_tree (kwargs c) =
    negb (arg_suppress_align_and_tree argv) /\
  (Kw.run_assign_tax (kwargs c) = true <->
   arg_suppress_taxonomy_assignment argv = false) /\
  (Kw.run_align_and_tree (kwargs c) = true <->
   arg_suppress_align_and_tree argv = false).
Proof.
  intros (opts & params & Ha & _ & Hfwd & _)%invoked_inv.
  rewrite (fwd_run_assign_tax _ _ _ _ Hfwd),
    (fwd_run_align_and_tree _ _ _ _ Hfwd),
    (acc_suppress_taxonomy_assignment _ _ _ _ Ha),
    (acc_suppress_align_and_tree _ _ _ _ Ha).
  destruct (arg_suppress_taxonomy_assignment argv),
           (arg_suppress_align_and_tree argv); simpl; by repeat split.
Qed.

Lemma suppress_flags_negated_witness :
  (exists c,
     c ∈ invoked (run Example.lib Example.single Example.disk).2 /\
     Kw.run_assign_tax (kwargs c) = true /\
     Kw.run_align_and_tree (kwargs c) = true) /\
  (exists c,
     c ∈ invoked (run Example.lib
                    (with_suppress_taxonomy_assignment Example.batches)
                    Example.disk).2 /\
     Kw.run_assign_tax (kwargs c) = false /\
     Kw.run_align_and_tree (kwargs c) = true).
Proof.
  split.
  - assert (exists c,
      invoked (run Example.lib Example.single Example.disk).2 = [c])
      as [c Hc] by (vm_compute; eauto).
    assert (c ∈ invoked (run Example.lib Example.single Example.disk).2)
      as Hin by (rewrite Hc; apply list_elem_of_here).
    exists c. split; [exact Hin|].
    destruct (suppress_flags_negated _ _ _ c Hin) as (H1 & H2 & _).
    by split.
  - assert (exists c,
      invoked (run Example.lib
                 (with_suppress_taxonomy_assignment Example.batches)
                 Example.disk).2 = [c]) as [c Hc] by (vm_compute; eauto).
    assert (c ∈ invoked (run Example.lib
                 (with_suppress_taxonomy_assignment Example.batches)
                 Example.disk).2) as Hin
      by (rewrite Hc; apply list_elem_of_here).
    exists c. split; [exact Hin|].
    destruct (suppress_flags_negated _ _ _ c Hin) as (H1 & H2 & _).
    by split.
Defined.

(** ** The command handler *)

Lemma command_handler_of_call lib argv disk c :
  c ∈ invoked (run lib argv disk).2 ->
  Kw.command_handler (kwargs c) = call_commands_serially.
Proof.
  intros (opts & params & _ & _ & Hfwd & _)%invoked_inv. apply Hfwd.
Qed.

(** C8, as the script behaves: [print_only] is fixed to [False] and the
    option that would set it is disabled, so every workflow call is made
    with [call_commands_serially] as its command handler. *)
Theorem command_handler_always_serial lib argv disk c :
  c ∈ invoked (run lib argv disk).2 ->
  Kw.command_handler (kwargs c) = call_commands_serially /\
  Kw.command_handler (kwargs c) <> print_commands.
Proof.
  intros Hin. rewrite (command_handler_of_call _ _ _ _ Hin). by split.
Qed.

Lemma command_handler_always_serial_witness :
  exists c,
    c ∈ invoked (run Example.lib Example.single Example.disk).2 /\
    Kw.command_handler (kwargs c) = call_commands_serially.
Proof.
  assert (exists c,
    invoked (run Example.lib Example.single Example.disk).2 = [c])
    as [c Hc] by (vm_compute; eauto).
  assert (c ∈ invoked (run Example.lib Example.single Example.disk).2)
    as Hin by (rewrite Hc; apply list_elem_of_here).
  exists c. split; [exact Hin|].
  exact (proj1 (command_handler_always_serial _ _ _ c Hin)).
Defined.

(** C8, as stated, fails: no command line, with any implementation of the
    imports and on any disk, makes the script call the workflow with
    [print_commands]. *)
Lemma dry_run_not_selectable : ~ dry_run_selectable.
Proof.
  intros (lib & argv & disk & c & Hin & Hh).
  rewrite (command_handler_of_call _ _ _ _ Hin) in Hh. discriminate.
Qed.

(** ** From the command line to the workflow call *)

Lemma accepted_by_parser lib argv disk opts :
  (parse_command_line_parameters lib argv
     {| fs := disk; trace := [] |}).1 = Ok opts ->
  parse_command_line_parameters lib argv {| fs := disk; trace := [] |} =
    (Ok opts, {| fs := disk; trace := [] |}) /\
  accepted lib argv disk opts.
Proof.
  intros Hparse.
  pose proof (parse_command_line_parameters_spec lib argv
                {| fs := disk; trace := [] |}) as H.
  unfold parses, wp in H.
  destruct (parse_command_line_parameters lib argv _) as [[o|e] w'];
    simpl in *; destruct H as [-> Ha]; [|discriminate].
  by injection Hparse as ->.
Qed.

Lemma run_no_arguments lib argv disk :
  no_arguments argv = true ->
  run lib argv disk =
    (Raise (OptionParserError NoArguments), {| fs := disk; trace := [] |}).
Proof.
  intros H. unfold run, main, parse_command_line_parameters.
  rewrite H. reflexivity.
Qed.


(** When nothing fails before the workflow call, the run is: read the
    parameters, make the output directory, call the workflow. *)
Lemma run_reaches_workflow lib argv disk opts lines evs params0
    default_jobs_to_start params failure disk' :
  (parse_command_line_parameters lib argv
     {| fs := disk; trace := [] |}).1 = Ok opts ->
  parameter_lines opts disk lines evs ->
  parse_qiime_parameters lib lines = Ok params0 ->
  qiime_config_getitem lib (load_qiime_config lib) "jobs_to_start" =
    Ok default_jobs_to_start ->
  validate_and_set_jobs_to_start lib params0 (Opts.jobs_to_start opts)
    default_jobs_to_start (Opts.parallel opts) = Ok params ->
  makedirs_outcome disk (Opts.output_dir opts) failure disk' ->
  (failure <> None -> truthy_flag (Opts.force opts) = true) ->
  exists c,
    run lib argv disk =
      (returned (workflow lib c disk'),
       {| fs := write_artifacts (Opts.output_dir opts)
                  (written (workflow lib c disk')) disk';
          trace := evs ++ [Makedirs (Opts.output_dir opts) failure;
                           Invoke c] |}) /\
    forwarded lib opts params (kwargs c) /\
    dispatched (Opts.input_fps opts) c.
Proof.
  intros [Hparse Ha]%accepted_by_parser Hl Hq Hg Hv Hmk Hforce.
  unfold run, main. rewrite (bind_Ok_l _ _ _ _ Hparse). cbv zeta.
  destruct (picking_methods_selected opts) as (d & r & -> & Hm);
    [apply Ha|].
  rewrite bind_ret_l.
  (* the parameters *)
  match goal with
  | |- context [bind ?m ?k {| fs := disk; trace := [] |}] =>
      assert (m {| fs := disk; trace := [] |} =
              (Ok params0, {| fs := disk; trace := evs |})) as Hstage
  end.
  { unfold parameter_lines in Hl.
    destruct (truthy_str (Opts.parameter_fp opts)).
    - destruct Hl as (p & -> & Hfile & Hread & ->). simpl.
      unfold bind, try_except, open, lift, close, ret, log; simpl.
      by rewrite Hfile, bool_decide_false, Hq.
    - destruct Hl as [-> ->]. unfold lift. by rewrite Hq. }
  unfold bind at 1. rewrite Hstage. clear Hstage. cbv beta iota.
  unfold qiime_config. rewrite Hg.
  unfold bind at 1, lift at 1. cbv beta iota. rewrite Hv.
  unfold bind at 1, lift at 1. cbv beta iota.
  (* the output directory *)
  match goal with
  | |- context [bind (try_except ?b ?h) ?k ?w] =>
      assert (try_except b h w =
                (Ok tt, {| fs := disk';
                           trace := evs ++ [Makedirs (Opts.output_dir opts)
                                                     failure] |}))
        as Hdir
  end.
  { unfold try_except, makedirs, log; simpl.
    unfold makedirs_outcome in Hmk. rewrite Hmk. simpl.
    destruct failure as [e|]; [|done]. by rewrite Hforce. }
  unfold bind at 1. rewrite Hdir. clear Hdir. cbv beta iota.
  (* the workflow *)
  destruct (length (Opts.input_fps opts) =? 1)%nat eqn:Hlen.
  - destruct (length_one_inv _ Hlen) as [input_fp Hfps]. rewrite Hfps.
    unfold bind, getitem, invoke, ret, log; simpl.
    eexists. split; [by rewrite <-app_assoc|]. split; [by split | done].
  - unfold invoke, log; simpl.
    eexists. split; [by rewrite <-app_assoc|].
    split; [by split | by eapply length_not_one_dispatched].
Qed.

Lemma invoked_after_makedirs evs path failure c disk :
  Forall file_event evs ->
  invoked {| fs := disk;
             trace := evs ++ [Makedirs path failure; Invoke c] |} = [c].
Proof.
  intros H. unfold invoked; simpl.
  by rewrite omap_app, file_events_not_invoked.
Qed.

(** ** Command lines the option parser does not accept *)

Lemma parse_command_line_parameters_checks lib argv w :
  parses (parse_command_line_parameters lib argv) w
         (fun _ => paths_checked lib argv (fs w)).
Proof.
  unfold parse_command_line_parameters.
  eapply parses_bind; [apply parses_arguments|]; intros _ _.
  eapply parses_bind;
    [apply parses_optional, parses_existing_filepaths|]; intros i Hi.
  eapply parses_bind;
    [apply parses_optional, parses_existing_filepath|]; intros r Hr.
  eapply parses_bind;
    [apply parses_optional, parses_new_dirpath|]; intros o Ho.
  eapply parses_bind; [apply parses_choice|]; intros m _.
  eapply parses_bind;
    [apply parses_optional, parses_existing_filepath|]; intros pf Hpf.
  eapply parses_bind;
    [apply parses_optional, parses_existing_filepath|]; intros pr Hpr.
  eapply parses_bind;
    [apply parses_optional, parses_existing_filepath|]; intros s1 Hs1.
  eapply parses_bind;
    [apply parses_optional, parses_existing_filepath|]; intros s1f Hs1f.
  eapply parses_bind; [apply parses_required|]; intros i' _.
  eapply parses_bind; [apply parses_required|]; intros r' _.
  eapply parses_bind; [apply parses_required|]; intros o' _.
  apply parses_ret. unfold paths_checked, path_options.
  split; [|split].
  - intros value Hv. rewrite Hv in Hi. destruct Hi as (a & _ & ->). eauto.
  - intros p Hp.
    destruct (arg_reference_fp argv), (arg_parameter_fp argv),
      (arg_prefilter_refseqs_fp argv), (arg_step1_otu_map_fp argv),
      (arg_step1_failures_fasta_fp argv); simpl in Hp;
      repeat (apply elem_of_cons in Hp as [->|Hp];
              [by firstorder|]);
      by apply elem_of_nil in Hp.
  - intros out Hout. rewrite Hout in Ho. by destruct Ho as (a & _ & _ & ->).
Qed.

Lemma rejected_when_not_accepted lib argv disk :
  (forall opts,
     parse_command_line_parameters lib argv {| fs := disk; trace := [] |} =
       (Ok opts, {| fs := disk; trace := [] |}) -> False) ->
  exists report,
    run lib argv disk =
      (Raise (OptionParserError report), {| fs := disk; trace := [] |}).
Proof.
  intros Hno.
  pose proof (parse_command_line_parameters_spec lib argv
                {| fs := disk; trace := [] |}) as H.
  unfold parses, wp, run, main, bind in *.
  destruct (parse_command_line_parameters lib argv _) as [[opts|e] w'];
    simpl in H; destruct H as [-> H].
  - by destruct (Hno opts).
  - destruct H as [report ->]. by exists report.
Qed.

Lemma failing_path_rejected lib argv disk p :
  p ∈ path_options argv ->
  existing_filepath lib disk p = false ->
  exists report,
    run lib argv disk =
      (Raise (OptionParserError report), {| fs := disk; trace := [] |}).
Proof.
  intros Hp Hcheck. apply rejected_when_not_accepted.
  intros opts Hparse.
  pose proof (parse_command_line_parameters_checks lib argv
                {| fs := disk; trace := [] |}) as H.
  unfold parses, wp in H. rewrite Hparse in H. simpl in H.
  destruct H as (_ & _ & H & _). apply H in Hp. congruence.
Qed.


(** ** Forcing the output directory *)

(** C9: with [-f], whatever [OSError] [os.makedirs] raises (the directory
    exists, or it cannot be created) is ignored: the next and last step of
    the run is the workflow call on that directory, as if the directory
    were ready, and the run ends as the workflow ends.  The script itself
    removes nothing: the disk the workflow is called on has the files of
    the disk the run started on and at least its directories, and a run
    that calls no workflow leaves such a disk. *)
Theorem force_ignores_every_OSError lib argv disk :
  arg_force argv = true ->
  let r := run lib argv disk in
  (forall out e,
     Makedirs out (Some e) ∈ trace r.2 ->
     exists c evs disk',
       makedirs_outcome disk out (Some e) disk' /\
       trace r.2 = (evs ++ [Makedirs out (Some e); Invoke c])%list /\
       invoked r.2 = [c] /\
       Kw.output_dir (kwargs c) = out /\
       r.1 = returned (workflow lib c disk') /\
       fs r.2 = write_artifacts out (written (workflow lib c disk')) disk')
  /\
  exists disk',
    files disk' = files disk /\
    directories disk ⊆ directories disk' /\
    (fs r.2 = disk' \/
     exists c,
       invoked r.2 = [c] /\
       fs r.2 = write_artifacts (Kw.output_dir (kwargs c))
                  (written (workflow lib c disk')) disk').
Proof.
  intros Hforce r. subst r.
  pose proof (run_ends lib argv disk) as H.
  destruct (run lib argv disk) as [r w]; simpl in *.
  destruct H as [report|opts e evs Ha Hevs|opts lines evs params0 e Ha Hl Hq He
                |opts lines evs params0 dflt params e disk' Ha Hl Hq Hg Hv
                   Hmk Hf
                |opts lines evs params0 dflt params failure disk' c
                   Ha Hl Hq Hg Hv Hmk Hf Hfwd Hd]; simpl.
  - split; [by intros out e ?%elem_of_nil|]. exists disk. auto.
  - apply parameters_failed_file_events in Hevs.
    split; [by intros out e' ?%file_events_no_makedirs|].
    exists disk. auto.
  - apply parameter_lines_file_events in Hl.
    split; [by intros out e' ?%file_events_no_makedirs|].
    exists disk. auto.
  - rewrite (acc_force _ _ _ _ Ha) in Hf. congruence.
  - apply parameter_lines_file_events in Hl.
    destruct (makedirs_outcome_keeps _ _ _ _ Hmk) as (Hfiles & Hdirs).
    pose proof (invoked_after_makedirs evs (Opts.output_dir opts) failure c
                  (write_artifacts (Opts.output_dir opts)
                     (written (workflow lib c disk')) disk') Hl) as Hinv.
    split.
    + intros out e [Hin|Hin]%elem_of_app;
        [by apply file_events_no_makedirs in Hin|].
      apply elem_of_cons in Hin as [[= Hout Hfail]|Hin];
        [|apply list_elem_of_singleton in Hin; discriminate].
      subst out failure.
      exists c, evs, disk'. split; [done|]. split; [done|].
      split; [exact Hinv|]. split; [apply Hfwd|]. done.
    + exists disk'. split; [done|]. split; [done|]. right. exists c.
      split; [exact Hinv|]. by rewrite (fwd_output_dir _ _ _ _ Hfwd).
Qed.

Lemma force_ignores_every_OSError_witness :
  let r := run Example.lib (with_force Example.into_refused) Example.disk in
  exists c disk',
    makedirs_outcome Example.disk "/proc/ucrss" (Some EACCES) disk' /\
    invoked r.2 = [c] /\ Kw.output_dir (kwargs c) = "/proc/ucrss" /\
    r.1 = returned (workflow Example.lib c disk').
Proof.
  destruct (force_ignores_every_OSError Example.lib
              (with_force Example.into_refused) Example.disk eq_refl)
    as (H & _).
  destruct (H "/proc/ucrss" EACCES)
    as (c & evs & disk' & Hmk & _ & Hinv & Hout & Hr & _).
  { vm_compute. apply list_elem_of_here. }
  exists c, disk'. split; [exact Hmk|]. split; [exact Hinv|].
  split; [exact Hout | exact Hr].
Defined.

(** ** The parameter file *)

Lemma read_empty_parameter_file lib p handler disk :
  files disk !! p = Some [] ->
  p ∉ unreadable disk ->
  same_effects
    (bind (try_except (open p) handler)
          (fun parameter_f =>
             bind (lift (parse_qiime_parameters lib parameter_f))
                  (fun params => bind (close p) (fun _ => ret params)))
          {| fs := disk; trace := [] |})
    (lift (parse_qiime_parameters lib []) {| fs := disk; trace := [] |}).
Proof.
  intros Hfile Hread.
  unfold bind, try_except, open, lift, close, ret, log; simpl.
  rewrite Hfile, bool_decide_false by done.
  by destruct (parse_qiime_parameters lib []).
Qed.

(** C10, as the script behaves.  A parameter file that the option parser
    has accepted and that [open] refuses ends the run in an [IOError] that
    names it, after the attempt to open it and before anything else is
    done; a path that fails the check of its option type does not get that
    far: the option parser refuses the command line.  Without [-p], when
    nothing else fails, the run makes the output directory and calls the
    workflow with the parameters parsed from no lines at all; every
    workflow call of a run without [-p] has these parameters; and the run
    has the result, the disk and the workflow call of the run with an
    empty parameter file. *)
Theorem parameter_file_handling lib argv disk :
  (forall opts p,
     (parse_command_line_parameters lib argv
        {| fs := disk; trace := [] |}).1 = Ok opts ->
     arg_parameter_fp argv = Some p ->
     p <> "" ->
     files disk !! p = None \/ p ∈ unreadable disk ->
     run lib argv disk =
       (Raise (IOError (cannot_open_message p)),
        {| fs := disk; trace := [Open p false] |})) /\
  (forall p,
     arg_parameter_fp argv = Some p ->
     existing_filepath lib disk p = false ->
     exists report,
       run lib argv disk =
         (Raise (OptionParserError report),
          {| fs := disk; trace := [] |})) /\
  (arg_parameter_fp argv = None ->
   (forall opts params0 default_jobs_to_start params failure disk',
      (parse_command_line_parameters lib argv
         {| fs := disk; trace := [] |}).1 = Ok opts ->
      parse_qiime_parameters lib [] = Ok params0 ->
      qiime_config_getitem lib (load_qiime_config lib) "jobs_to_start" =
        Ok default_jobs_to_start ->
      validate_and_set_jobs_to_start lib params0
        (with_default (jobs_to_start_workflow_default lib)
                      (arg_jobs_to_start argv))
        default_jobs_to_start (arg_parallel argv) = Ok params ->
      makedirs_outcome disk (Opts.output_dir opts) failure disk' ->
      failure = None \/ arg_force argv = true ->
      exists c,
        trace (run lib argv disk).2 =
          [Makedirs (Opts.output_dir opts) failure; Invoke c] /\
        Kw.params (kwargs c) = params /\
        (run lib argv disk).1 = returned (workflow lib c disk')) /\
   (forall c, c ∈ invoked (run lib argv disk).2 ->
      exists params0 default_jobs_to_start,
        parse_qiime_parameters lib [] = Ok params0 /\
        qiime_config_getitem lib (load_qiime_config lib) "jobs_to_start" =
          Ok default_jobs_to_start /\
        validate_and_set_jobs_to_start lib params0
          (with_default (jobs_to_start_workflow_default lib)
                        (arg_jobs_to_start argv))
          default_jobs_to_start (arg_parallel argv) =
          Ok (Kw.params (kwargs c))) /\
   (forall p,
      no_arguments argv = false ->
      files disk !! p = Some [] ->
      p ∉ unreadable disk ->
      existing_filepath lib disk p = true ->
      same_effects (run lib (with_parameter_fp p argv) disk)
                   (run lib argv disk))).
Proof.
  split; [|split; [|intros Hnone; split; [|split]]].
  - intros opts p Hparse Hfp Hne Hopen.
    pose proof (parse_command_line_parameters_spec lib argv
                  {| fs := disk; trace := [] |}) as H.
    unfold parses, wp in H. unfold run, main. unfold bind at 1.
    destruct (parse_command_line_parameters lib argv _) as [[o|e] w'];
      simpl in *; destruct H as [-> Ha]; [|discriminate].
    injection Hparse as ->. cbv zeta.
    destruct (picking_methods_selected opts) as (d & r & -> & _);
      [apply Ha|].
    rewrite bind_ret_l.
    rewrite (acc_parameter_fp _ _ _ _ Ha), Hfp. simpl.
    destruct (String.eqb_spec p ""); [done|]. simpl.
    unfold bind, try_except, open, raise, log; simpl.
    destruct Hopen as [->|Hun]; [done|].
    destruct (files disk !! p); [|done].
    by rewrite bool_decide_true.
  - intros p Hfp Hcheck. apply (failing_path_rejected lib argv disk p);
      [|done].
    unfold path_options. rewrite Hfp.
    destruct (arg_reference_fp argv); simpl;
      [apply list_elem_of_further|]; apply list_elem_of_here.
  - intros opts params0 dflt params failure disk' Hparse Hq Hg Hv Hmk Hdir.
    pose proof (accepted_by_parser _ _ _ _ Hparse) as [_ Ha].
    destruct (run_reaches_workflow lib argv disk opts [] [] params0 dflt
                params failure disk' Hparse) as (c & Hrun & Hfwd & _);
      try done.
    + unfold parameter_lines.
      by rewrite (acc_parameter_fp _ _ _ _ Ha), Hnone.
    + by rewrite (acc_jobs_to_start _ _ _ _ Ha), (acc_parallel _ _ _ _ Ha).
    + intros Hfail. rewrite (acc_force _ _ _ _ Ha).
      by destruct Hdir as [-> | ->].
    + exists c. rewrite Hrun. simpl. split; [done|].
      split; [apply Hfwd | done].
  - intros c (opts & params & Ha & Hc & Hfwd & _)%invoked_inv.
    destruct Hc as (lines & evs & params0 & dflt & Hl & Hq & Hg & Hv).
    unfold parameter_lines in Hl.
    rewrite (acc_parameter_fp _ _ _ _ Ha), Hnone in Hl.
    destruct Hl as [-> _].
    exists params0, dflt. split; [done|]. split; [done|].
    rewrite (fwd_params _ _ _ _ Hfwd),
      <-(acc_jobs_to_start _ _ _ _ Ha), <-(acc_parallel _ _ _ _ Ha).
    done.
  - intros p Hargs Hfile Hread Hex. unfold run, main.
    rewrite (bind_ext_at
               (parse_command_line_parameters lib (with_parameter_fp p argv))
               (fmapM (opts_with_parameter_fp (Some p))
                      (parse_command_line_parameters lib argv)))
      by (by apply parse_with_parameter_fp).
    unfold fmapM. rewrite bind_assoc.
    eapply same_effects_bind_parses;
      [apply parse_command_line_parameters_spec|].
    intros opts Ha. simpl in Ha. rewrite bind_ret_l. cbv zeta.
    unfold opts_with_parameter_fp; simpl.
    destruct (picking_methods_selected opts) as (d & r & -> & _);
      [apply Ha|].
    rewrite !bind_ret_l.
    rewrite (acc_parameter_fp _ _ _ _ Ha), Hnone. simpl.
    apply same_effects_bind.
    { destruct (String.eqb p ""); simpl;
        [apply same_effects_refl | by apply read_empty_parameter_file]. }
    intros params0.
    apply insensitive_bind; [apply insensitive_lift|]; intros dflt.
    apply insensitive_bind; [apply insensitive_lift|]; intros params.
    apply insensitive_bind.
    { apply insensitive_try_except; [apply insensitive_makedirs|].
      intros [] h [= <-]. destruct (truthy_flag _);
        [apply insensitive_ret | apply insensitive_raise]. }
    intros _. destruct (_ =? _)%nat.
    + apply insensitive_bind; [apply insensitive_getitem|]; intros fp.
      apply insensitive_invoke.
    + apply insensitive_invoke.
Qed.

Lemma parameter_file_handling_witness :
  let secret := "/home/ubuntu/secret_params.txt" in
  let r := run Example.lib (with_parameter_fp secret Example.single)
               Example.disk in
  let r' := run Example.lib Example.single Example.disk in
  (r.1 = Raise (IOError (cannot_open_message secret)) /\
   fs r.2 = Example.disk /\ created r.2 = [] /\ invoked r.2 = []) /\
  (exists c,
     trace r'.2 = [Makedirs "/home/ubuntu/out" None; Invoke c] /\
     Kw.params (kwargs c) =
       {[ "parallel" := {[ "jobs_to_start" := Some "1" ]} ]}) /\
  same_effects
    (run Example.lib
       (with_parameter_fp "/home/ubuntu/empty_params.txt" Example.single)
       Example.disk)
    r'.
Proof.
  split; [|split].
  - assert (exists opts,
      (parse_command_line_parameters Example.lib
         (with_parameter_fp "/home/ubuntu/secret_params.txt" Example.single)
         {| fs := Example.disk; trace := [] |}).1 = Ok opts)
      as [opts Hopts] by (vm_compute; eauto).
    rewrite (proj1 (parameter_file_handling Example.lib
               (with_parameter_fp "/home/ubuntu/secret_params.txt"
                  Example.single) Example.disk)
               opts "/home/ubuntu/secret_params.txt" Hopts eq_refl).
    + by repeat split.
    + discriminate.
    + right. simpl. apply elem_of_singleton. reflexivity.
  - assert (exists opts,
      (parse_command_line_parameters Example.lib Example.single
         {| fs := Example.disk; trace := [] |}).1 = Ok opts /\
      Opts.output_dir opts = "/home/ubuntu/out")
      as (opts & Hopts & Hout) by (vm_compute; eauto).
    assert (exists disk',
      makedirs_outcome Example.disk "/home/ubuntu/out" None disk')
      as [disk' Hmk] by (vm_compute; eauto).
    destruct (proj1 (proj2 (proj2 (parameter_file_handling Example.lib
                Example.single Example.disk)) eq_refl)
                opts ∅ (Some "1")
                {[ "parallel" := {[ "jobs_to_start" := Some "1" ]} ]}
                None disk' Hopts)
      as (c & Htrace & Hparams & _).
    + reflexivity.
    + reflexivity.
    + vm_compute. reflexivity.
    + rewrite Hout. exact Hmk.
    + by left.
    + exists c. rewrite Hout in Htrace.
      split; [exact Htrace | exact Hparams].
  - apply (proj2 (proj2 (parameter_file_handling Example.lib Example.single
                    Example.disk)) eq_refl).
    + reflexivity.
    + vm_compute. reflexivity.
    + simpl. rewrite not_elem_of_singleton. discriminate.
    + vm_compute. reflexivity.
Defined.

(** C10, as stated, fails: a parameter file that does not exist is a value
    the option parser refuses, and the run ends in its usage error. *)
Lemma missing_parameter_file_is_usage_error :
  ~ unopenable_parameter_file_is_IOError
      Example.lib Cases.missing_params Example.disk.
Proof.
  intros H.
  destruct (H "/home/ubuntu/missing_params.txt") as [msg Hmsg].
  - reflexivity.
  - left. vm_compute. reflexivity.
  - vm_compute in Hmsg. discriminate Hmsg.
Qed.

(** ** Further properties of runs *)

(** X1.  The workflow is called at most once, as the last thing a run
    does.  A run that does not get to the call ends in an error; a run
    that gets there ends as the workflow ends, returning or raising, on
    the disk the workflow leaves.  A run that ends normally has called the
    workflow, once. *)
Theorem workflow_call_is_last_and_only lib argv disk :
  let r := run lib argv disk in
  (invoked r.2 = [] \/
   exists c evs,
     trace r.2 = (evs ++ [Invoke c])%list /\ invoked r.2 = [c]) /\
  (invoked r.2 = [] -> exists e, r.1 = Raise e) /\
  (r.1 = Ok tt -> exists c, invoked r.2 = [c]) /\
  (forall c, c ∈ invoked r.2 ->
     exists disk',
       r.1 = returned (workflow lib c disk') /\
       fs r.2 = write_artifacts (Kw.output_dir (kwargs c))
                  (written (workflow lib c disk')) disk').
Proof.
  intros r. subst r.
  pose proof (run_ends lib argv disk) as H.
  destruct (run lib argv disk) as [r w]; simpl in *. unfold invoked.
  destruct H as [report|opts e evs Ha Hevs|opts lines evs params0 e Ha Hl Hq He
                |opts lines evs params0 dflt params e disk' Ha Hl Hq Hg Hv
                   Hmk Hf
                |opts lines evs params0 dflt params failure disk' c
                   Ha Hl Hq Hg Hv Hmk Hf Hfwd Hd]; simpl.
  - split; [by left|]. split; [by eexists|]. split; [done|].
    by intros c ?%elem_of_nil.
  - apply parameters_failed_file_events in Hevs.
    rewrite file_events_not_invoked by done.
    split; [by left|]. split; [by eexists|]. split; [done|].
    by intros c ?%elem_of_nil.
  - apply parameter_lines_file_events in Hl.
    rewrite file_events_not_invoked by done.
    split; [by left|]. split; [by eexists|]. split; [done|].
    by intros c ?%elem_of_nil.
  - apply parameter_lines_file_events in Hl.
    rewrite omap_app, file_events_not_invoked by done. simpl.
    split; [by left|]. split; [by eexists|]. split; [done|].
    by intros c ?%elem_of_nil.
  - apply parameter_lines_file_events in Hl.
    rewrite omap_app, file_events_not_invoked by done. simpl.
    split.
    { right.
      exists c, (evs ++ [Makedirs (Opts.output_dir opts) failure])%list.
      by rewrite <-app_assoc. }
    split; [done|]. split; [by exists c|].
    intros c' ->%list_elem_of_singleton. exists disk'.
    by rewrite (fwd_output_dir _ _ _ _ Hfwd).
Qed.

Lemma workflow_call_is_last_and_only_witness :
  let r := run Cases.failing Example.single Example.disk in
  r.1 = Raise (LibraryError "WorkflowError" "pick_otus.py") /\
  exists c, invoked r.2 = [c] /\
    exists disk', r.1 = returned (workflow Cases.failing c disk').
Proof.
  split; [vm_compute; reflexivity|].
  assert (exists c,
    invoked (run Cases.failing Example.single Example.disk).2 = [c])
    as [c Hc] by (vm_compute; eauto).
  exists c. split; [exact Hc|].
  destruct (workflow_call_is_last_and_only Cases.failing Example.single
              Example.disk) as (_ & _ & _ & H).
  destruct (H c) as (disk' & Hr & _).
  { rewrite Hc. apply list_elem_of_here. }
  exists disk'. exact Hr.
Defined.



(** X4.  Without [-f], whatever makes [os.makedirs] fail (not only an existing
    directory) is reported as "Output directory already exists", and no
    workflow is called. *)
Theorem makedirs_failure_reported_as_existing lib argv disk out e :
  arg_force argv = false ->
  Makedirs out (Some e) ∈ trace (run lib argv disk).2 ->
  (run lib argv disk).1 =
    Raise (OptionParserError (Message output_dir_exists_message)) /\
  exit_status (OptionParserError (Message output_dir_exists_message)) = 2 /\
  invoked (run lib argv disk).2 = [] /\
  arg_output_dir argv = Some out.
Proof.
  intros Hforce Hin.
  pose proof (run_ends lib argv disk) as H.
  destruct (run lib argv disk) as [r w]; simpl in *.
  unfold invoked.
  destruct H as [report|opts e' evs Ha Hevs
                |opts lines evs params0 e' Ha Hl Hq He
                |opts lines evs params0 dflt params e' disk' Ha Hl Hq Hg Hv
                   Hmk Hf
                |opts lines evs params0 dflt params failure disk' c'
                   Ha Hl Hq Hg Hv Hmk Hf Hfwd Hd]; simpl in *.
  - by apply elem_of_nil in Hin.
  - apply parameters_failed_file_events in Hevs.
    by apply file_events_no_makedirs in Hin.
  - apply parameter_lines_file_events in Hl.
    by apply file_events_no_makedirs in Hin.
  - apply parameter_lines_file_events in Hl.
    apply elem_of_app in Hin as [Hin|Hin];
      [by apply file_events_no_makedirs in Hin|].
    apply list_elem_of_singleton in Hin. injection Hin as Ho He. subst.
    rewrite omap_app, file_events_not_invoked by done.
    repeat split; try done. apply Ha.
  - pose proof (parameter_lines_file_events _ _ _ _ Hl) as Hevs.
    apply elem_of_app in Hin as [Hin|Hin];
      [by apply file_events_no_makedirs in Hin|].
    apply elem_of_cons in Hin as [[= Ho He]|Hin];
      [|apply list_elem_of_singleton in Hin; discriminate].
    subst. rewrite (acc_force _ _ _ _ Ha), Hforce in Hf.
    by discriminate Hf.
Qed.

Lemma makedirs_failure_reported_as_existing_witness :
  (run Example.lib Example.into_refused Example.disk).1 =
    Raise (OptionParserError (Message output_dir_exists_message)) /\
  isdir Example.disk "/proc/ucrss" = false.
Proof.
  split.
  - apply (makedirs_failure_reported_as_existing Example.lib
             Example.into_refused Example.disk "/proc/ucrss" EACCES eq_refl).
    vm_compute. apply list_elem_of_here.
  - reflexivity.
Defined.

(** X5.  Running the same command a second time without [-f], on the disk the
    first run has left, ends in an error: the workflow is not called and
    the disk is not changed. *)
Theorem rerun_without_force_aborts lib argv disk w :
  arg_force argv = false ->
  run lib argv disk = (Ok tt, w) ->
  (exists e, (run lib argv (fs w)).1 = Raise e) /\
  invoked (run lib argv (fs w)).2 = [] /\
  fs (run lib argv (fs w)).2 = fs w.
Proof.
  intros Hforce Hrun.
  (* the first run has created the output directory *)
  assert (exists out, arg_output_dir argv = Some out /\
                      isdir (fs w) out = true) as (out & Hout & Hdir).
  { pose proof (run_ends lib argv disk) as H. rewrite Hrun in H.
    simpl in H. inversion H as [| | | |opts lines evs params0 dflt params
      failure disk' c Ha Hl Hq Hg Hv Hmk Hf Hfwd Hd Hr Hw]; subst.
    exists (Opts.output_dir opts). split; [apply Ha|]. simpl.
    destruct failure as [e|].
    { rewrite (acc_force _ _ _ _ Ha), Hforce in Hf. by discriminate Hf. }
    apply makedirs_outcome_created in Hmk as [_ Hmk].
    eapply isdir_mono; [apply write_artifacts_keeps | exact Hmk]. }
  (* the second run finds it *)
  pose proof (run_ends lib argv (fs w)) as H.
  destruct (run lib argv (fs w)) as [r w']; simpl in *. unfold invoked.
  destruct H as [report|opts e evs Ha Hevs|opts lines evs params0 e Ha Hl Hq He
                |opts lines evs params0 dflt params e disk' Ha Hl Hq Hg Hv
                   Hmk Hf
                |opts lines evs params0 dflt params failure disk' c
                   Ha Hl Hq Hg Hv Hmk Hf Hfwd Hd]; simpl.
  - split; [by eexists|]. by split.
  - apply parameters_failed_file_events in Hevs.
    split; [by eexists|]. by rewrite file_events_not_invoked.
  - apply parameter_lines_file_events in Hl.
    split; [by eexists|]. by rewrite file_events_not_invoked.
  - apply parameter_lines_file_events in Hl.
    rewrite (accepted_output_dir _ _ _ _ _ Ha Hout) in *.
    destruct (makedirs_outcome_existing _ _ _ _ Hmk Hdir) as [_ ->].
    split; [by eexists|].
    by rewrite omap_app, file_events_not_invoked.
  - rewrite (accepted_output_dir _ _ _ _ _ Ha Hout) in *.
    destruct (makedirs_outcome_existing _ _ _ _ Hmk Hdir) as [-> _].
    rewrite (acc_force _ _ _ _ Ha), Hforce in Hf. by discriminate Hf.
Qed.

Lemma rerun_without_force_aborts_witness :
  exists w,
    run Example.lib Example.single Example.disk = (Ok tt, w) /\
    (exists e, (run Example.lib Example.single (fs w)).1 = Raise e) /\
    invoked (run Example.lib Example.single (fs w)).2 = [].
Proof.
  assert (exists w,
    run Example.lib Example.single Example.disk = (Ok tt, w))
    as [w Hw] by (vm_compute; eauto).
  exists w. split; [exact Hw|].
  destruct (rerun_without_force_aborts Example.lib Example.single
              Example.disk w eq_refl Hw) as (He & Hinv & _).
  by split.
Defined.

(** X6.  Progress is printed exactly when [-v] is given. *)
Theorem status_updates_when_verbose lib argv disk c :
  c ∈ invoked (run lib argv disk).2 ->
  Kw.status_update_callback (kwargs c) =
    if arg_verbose argv then print_to_stdout else no_status_updates.
Proof.
  intros (opts & params & Ha & _ & Hfwd & _)%invoked_inv.
  by rewrite (fwd_status_update_callback _ _ _ _ Hfwd),
    (acc_verbose _ _ _ _ Ha).
Qed.

Lemma status_updates_when_verbose_witness :
  exists c,
    c ∈ invoked (run Example.lib (with_verbose Example.batches)
                     Example.disk).2 /\
    Kw.status_update_callback (kwargs c) = print_to_stdout.
Proof.
  assert (exists c,
    invoked (run Example.lib (with_verbose Example.batches)
                 Example.disk).2 = [c]) as [c Hc] by (vm_compute; eauto).
  assert (c ∈ invoked (run Example.lib (with_verbose Example.batches)
                           Example.disk).2) as Hin
    by (rewrite Hc; apply list_elem_of_here).
  exists c. split; [exact Hin|].
  exact (status_updates_when_verbose _ _ _ c Hin).
Defined.

(** X7.  The remaining options reach the workflow as they were given, with the
    defaults of the options table for the absent ones: the reference and
    the output directory, [New] for the identifier of new OTUs, [2] for
    the minimum OTU size, and the two switches.  The prefilter reference is
    not replaced by the reference when it is absent, the logger is always
    [None], and the configuration loaded at import time is passed on. *)
Theorem options_forwarded_with_defaults lib argv disk c :
  c ∈ invoked (run lib argv disk).2 ->
  arg_reference_fp argv = Some (Kw.refseqs_fp (kwargs c)) /\
  arg_output_dir argv = Some (Kw.output_dir (kwargs c)) /\
  Kw.new_ref_set_id (kwargs c) =
    with_default "New" (arg_new_ref_set_id argv) /\
  Kw.min_otu_size (kwargs c) = with_default 2 (arg_min_otu_size argv) /\
  Kw.parallel (kwargs c) = arg_parallel argv /\
  Kw.suppress_step4 (kwargs c) = arg_suppress_step4 argv /\
  Kw.prefilter_refseqs_fp (kwargs c) = arg_prefilter_refseqs_fp argv /\
  Kw.logger (kwargs c) = None /\
  Kw.qiime_config (kwargs c) = load_qiime_config lib.
Proof.
  intros (opts & params & Ha & _ & Hfwd & _)%invoked_inv.
  rewrite (fwd_refseqs_fp _ _ _ _ Hfwd), (fwd_output_dir _ _ _ _ Hfwd),
    (fwd_new_ref_set_id _ _ _ _ Hfwd), (fwd_min_otu_size _ _ _ _ Hfwd),
    (fwd_parallel _ _ _ _ Hfwd), (fwd_suppress_step4 _ _ _ _ Hfwd),
    (fwd_prefilter_refseqs_fp _ _ _ _ Hfwd), (fwd_logger _ _ _ _ Hfwd),
    (fwd_qiime_config _ _ _ _ Hfwd).
  repeat split; apply Ha.
Qed.

Lemma options_forwarded_with_defaults_witness :
  exists c,
    c ∈ invoked (run Example.lib Example.single Example.disk).2 /\
    Kw.refseqs_fp (kwargs c) = "/home/ubuntu/refseqs.fna" /\
    Kw.new_ref_set_id (kwargs c) = "New" /\
    Kw.min_otu_size (kwargs c) = 2 /\
    Kw.prefilter_refseqs_fp (kwargs c) = None.
Proof.
  assert (exists c,
    invoked (run Example.lib Example.single Example.disk).2 = [c])
    as [c Hc] by (vm_compute; eauto).
  assert (c ∈ invoked (run Example.lib Example.single Example.disk).2)
    as Hin by (rewrite Hc; apply list_elem_of_here).
  exists c. split; [exact Hin|].
  destruct (options_forwarded_with_defaults _ _ _ c Hin)
    as (Hr & _ & Hn & Hm & _ & _ & Hp & _).
  injection Hr as Hr. by repeat split.
Defined.

(** X8.  With [-p], the parameters the workflow receives are parsed from the
    lines of that file and completed by the validation of the number of
    jobs; the file has been opened once and closed before the output
    directory is dealt with. *)
Theorem parameters_read_from_file lib argv disk c p :
  arg_parameter_fp argv = Some p ->
  p <> "" ->
  c ∈ invoked (run lib argv disk).2 ->
  exists lines params0 default_jobs_to_start out failure,
    files disk !! p = Some lines /\
    parse_qiime_parameters lib lines = Ok params0 /\
    qiime_config_getitem lib (load_qiime_config lib) "jobs_to_start" =
      Ok default_jobs_to_start /\
    validate_and_set_jobs_to_start lib params0
      (with_default (jobs_to_start_workflow_default lib)
                    (arg_jobs_to_start argv))
      default_jobs_to_start (arg_parallel argv) =
      Ok (Kw.params (kwargs c)) /\
    trace (run lib argv disk).2 =
      [Open p true; Close p; Makedirs out failure; Invoke c].
Proof.
  intros Hfp Hne Hin.
  pose proof (run_ends lib argv disk) as H.
  destruct (run lib argv disk) as [r w]; simpl in *. unfold invoked in Hin.
  destruct H as [report|opts e evs Ha Hevs|opts lines evs params0 e Ha Hl Hq He
                |opts lines evs params0 dflt params e disk' Ha Hl Hq Hg Hv
                   Hmk Hf
                |opts lines evs params0 dflt params failure disk' c'
                   Ha Hl Hq Hg Hv Hmk Hf Hfwd Hd]; simpl in *.
  - by apply elem_of_nil in Hin.
  - apply parameters_failed_file_events in Hevs.
    rewrite file_events_not_invoked in Hin by done.
    by apply elem_of_nil in Hin.
  - apply parameter_lines_file_events in Hl.
    rewrite file_events_not_invoked in Hin by done.
    by apply elem_of_nil in Hin.
  - apply parameter_lines_file_events in Hl.
    rewrite omap_app, file_events_not_invoked in Hin by done.
    by apply elem_of_nil in Hin.
  - pose proof (parameter_lines_file_events _ _ _ _ Hl) as Hevs.
    rewrite omap_app, file_events_not_invoked in Hin by done.
    apply list_elem_of_singleton in Hin as ->.
    unfold parameter_lines in Hl.
    rewrite (acc_parameter_fp _ _ _ _ Ha), Hfp in Hl. simpl in Hl.
    destruct (String.eqb_spec p ""); [done|]. simpl in Hl.
    destruct Hl as (p' & [= <-] & Hfile & _ & ->).
    exists lines, params0, dflt, (Opts.output_dir opts), failure.
    rewrite (fwd_params _ _ _ _ Hfwd),
      <-(acc_jobs_to_start _ _ _ _ Ha), <-(acc_parallel _ _ _ _ Ha).
    done.
Qed.

Lemma parameters_read_from_file_witness :
  exists c lines,
    c ∈ invoked (run Example.lib Cases.with_params Cases.disk).2 /\
    files Cases.disk !! "/home/ubuntu/ucrss_params.txt" = Some lines /\
    lines = ["pick_otus:similarity"; "align_seqs:min_length"] /\
    exists params0,
      parse_qiime_parameters Example.lib lines = Ok params0.
Proof.
  assert (exists c,
    invoked (run Example.lib Cases.with_params Cases.disk).2 = [c])
    as [c Hc] by (vm_compute; eauto).
  assert (c ∈ invoked (run Example.lib Cases.with_params Cases.disk).2)
    as Hin by (rewrite Hc; apply list_elem_of_here).
  destruct (parameters_read_from_file Example.lib Cases.with_params
              Cases.disk c "/home/ubuntu/ucrss_params.txt" eq_refl)
    as (lines & params0 & _ & _ & _ & Hfile & Hq & _);
    [discriminate | exact Hin |].
  exists c, lines. split; [exact Hin|]. split; [exact Hfile|].
  split; [|by exists params0].
  vm_compute in Hfile. by injection Hfile as <-.
Defined.

(** ** Failures while the parameters are prepared *)

(** X9.  Only a failing [open] is turned into the "Can't open parameters file"
    error: what [parse_qiime_parameters] raises on the lines of the file
    ends the run as it is, the file is left open, and nothing is
    created. *)
Theorem parameter_parser_error_propagates lib argv disk opts p lines e :
  (parse_command_line_parameters lib argv
     {| fs := disk; trace := [] |}).1 = Ok opts ->
  arg_parameter_fp argv = Some p ->
  p <> "" ->
  files disk !! p = Some lines ->
  p ∉ unreadable disk ->
  parse_qiime_parameters lib lines = Raise e ->
  run lib argv disk = (Raise e, {| fs := disk; trace := [Open p true] |}).
Proof.
  intros [Hparse Ha]%accepted_by_parser Hfp Hne Hfile Hread Hq.
  unfold run, main. rewrite (bind_Ok_l _ _ _ _ Hparse). cbv zeta.
  destruct (picking_methods_selected opts) as (d & r & -> & _);
    [apply Ha|].
  rewrite bind_ret_l.
  rewrite (acc_parameter_fp _ _ _ _ Ha), Hfp. simpl.
  destruct (String.eqb_spec p ""); [done|]. simpl.
  unfold bind, try_except, open, lift, log; simpl.
  by rewrite Hfile, bool_decide_false, Hq.
Qed.

Lemma parameter_parser_error_propagates_witness :
  run Cases.strict Cases.with_params Cases.disk =
    (Raise (LibraryError "ValueError" "pick_otus:similarity"),
     {| fs := Cases.disk;
        trace := [Open "/home/ubuntu/ucrss_params.txt" true] |}).
Proof.
  assert (exists opts,
    (parse_command_line_parameters Cases.strict Cases.with_params
       {| fs := Cases.disk; trace := [] |}).1 = Ok opts)
    as [opts Hopts] by (vm_compute; eauto).
  apply (parameter_parser_error_propagates Cases.strict Cases.with_params
           Cases.disk opts "/home/ubuntu/ucrss_params.txt"
           ["pick_otus:similarity"; "align_seqs:min_length"]).
  - exact Hopts.
  - reflexivity.
  - discriminate.
  - vm_compute. reflexivity.
  - simpl. rewrite not_elem_of_singleton. discriminate.
  - reflexivity.
Defined.

(** X10.  The number of jobs is validated before the output directory is
    created: when [qiime_config['jobs_to_start']] or
    [validate_and_set_jobs_to_start] raises, the run ends in that very
    exception, and the disk is as it was. *)
Theorem jobs_validated_before_output_dir lib argv disk opts lines evs
    params0 e :
  (parse_command_line_parameters lib argv
     {| fs := disk; trace := [] |}).1 = Ok opts ->
  parameter_lines opts disk lines evs ->
  parse_qiime_parameters lib lines = Ok params0 ->
  qiime_config_getitem lib (load_qiime_config lib) "jobs_to_start" =
    Raise e
  \/ (exists default_jobs_to_start,
        qiime_config_getitem lib (load_qiime_config lib) "jobs_to_start" =
          Ok default_jobs_to_start /\
        validate_and_set_jobs_to_start lib params0
          (with_default (jobs_to_start_workflow_default lib)
                        (arg_jobs_to_start argv))
          default_jobs_to_start (arg_parallel argv) = Raise e) ->
  run lib argv disk = (Raise e, {| fs := disk; trace := evs |}).
Proof.
  intros [Hparse Ha]%accepted_by_parser Hl Hq Hfail.
  unfold run, main. rewrite (bind_Ok_l _ _ _ _ Hparse). cbv zeta.
  destruct (picking_methods_selected opts) as (d & r & -> & _);
    [apply Ha|].
  rewrite bind_ret_l.
  rewrite (acc_jobs_to_start _ _ _ _ Ha), (acc_parallel _ _ _ _ Ha).
  unfold parameter_lines in Hl. unfold qiime_config.
  destruct (truthy_str (Opts.parameter_fp opts)).
  - destruct Hl as (p & -> & Hfile & Hread & ->). simpl.
    unfold bind, try_except, open, lift, close, ret, log; simpl.
    rewrite Hfile, bool_decide_false, Hq by done. simpl.
    destruct Hfail as [->|(dflt & -> & ->)]; done.
  - destruct Hl as [-> ->].
    unfold bind, lift; simpl. rewrite Hq.
    destruct Hfail as [->|(dflt & -> & ->)]; done.
Qed.

Lemma jobs_validated_before_output_dir_witness :
  run Example.lib Cases.four_jobs Example.disk =
    (Raise (OptionParserError
              (Message "Passing -O requires that -a is also passed.")),
     {| fs := Example.disk; trace := [] |}).
Proof.
  assert (exists opts,
    (parse_command_line_parameters Example.lib Cases.four_jobs
       {| fs := Example.disk; trace := [] |}).1 = Ok opts)
    as [opts Hopts] by (vm_compute; eauto).
  apply (jobs_validated_before_output_dir Example.lib Cases.four_jobs
           Example.disk opts [] [] ∅).
  - exact Hopts.
  - apply accepted_by_parser in Hopts as [_ Ha].
    unfold parameter_lines.
    by rewrite (acc_parameter_fp _ _ _ _ Ha).
  - reflexivity.
  - right. exists (Some "1"). split; reflexivity.
Defined.

(** ** What the option parser refuses *)

(** X11.  A command line without [-i], [-r] or [-o] is refused by the option
    parser: the run ends in a usage error, and nothing is opened, created
    or called.  On the empty command line the usage text is all that is
    printed. *)
Theorem required_options_enforced lib argv disk :
  arg_input_fps argv = None \/ arg_reference_fp argv = None \/
    arg_output_dir argv = None ->
  exists report,
    run lib argv disk =
      (Raise (OptionParserError report), {| fs := disk; trace := [] |}) /\
    (no_arguments argv = true -> report = NoArguments).
Proof.
  intros Hmissing.
  destruct (no_arguments argv) eqn:Hargs.
  { exists NoArguments. split; [by apply run_no_arguments | done]. }
  destruct (rejected_when_not_accepted lib argv disk) as [report Hrun];
    [|by exists report].
  intros opts Hparse.
  assert (accepted lib argv disk opts) as Ha
    by (apply accepted_by_parser; by rewrite Hparse).
  destruct Hmissing as [H|[H|H]].
  - destruct (acc_input_fps _ _ _ _ Ha) as (v & Hv & _). congruence.
  - pose proof (acc_reference_fp _ _ _ _ Ha). congruence.
  - pose proof (acc_output_dir _ _ _ _ Ha). congruence.
Qed.

Lemma required_options_enforced_witness :
  (exists report,
     run Example.lib Cases.no_reference Example.disk =
       (Raise (OptionParserError report),
        {| fs := Example.disk; trace := [] |})) /\
  run Example.lib Cases.no_argument Example.disk =
    (Raise (OptionParserError NoArguments),
     {| fs := Example.disk; trace := [] |}).
Proof.
  split.
  - destruct (required_options_enforced Example.lib Cases.no_reference
                Example.disk) as (report & Hrun & _).
    + right. left. reflexivity.
    + by exists report.
  - destruct (required_options_enforced Example.lib Cases.no_argument
                Example.disk) as (report & Hrun & Hreport).
    + left. reflexivity.
    + rewrite Hrun, (Hreport eq_refl). reflexivity.
Defined.

(** X12.  Each path option is checked on its own: one value that fails the check
    of its type ([existing_filepath] for the reference, the parameter file,
    the prefilter reference and the two Step 1 files) has the whole command
    line refused, with nothing opened, created or called. *)
Theorem failing_path_option_refused lib argv disk p :
  p ∈ path_options argv ->
  existing_filepath lib disk p = false ->
  exists report,
    run lib argv disk =
      (Raise (OptionParserError report), {| fs := disk; trace := [] |}).
Proof.
  intros Hp Hcheck. apply rejected_when_not_accepted.
  intros opts Hparse.
  pose proof (parse_command_line_parameters_checks lib argv
                {| fs := disk; trace := [] |}) as H.
  unfold parses, wp in H. rewrite Hparse in H. simpl in H.
  destruct H as (_ & _ & H & _). apply H in Hp. congruence.
Qed.

Lemma failing_path_option_refused_witness :
  exists report,
    run Example.lib Cases.missing_failures Example.disk =
      (Raise (OptionParserError report),
       {| fs := Example.disk; trace := [] |}).
Proof.
  apply (failing_path_option_refused Example.lib Cases.missing_failures
           Example.disk "/home/ubuntu/failures.fasta").
  - vm_compute. do 2 apply list_elem_of_further. apply list_elem_of_here.
  - vm_compute. reflexivity.
Defined.

(** ** The order of what a run does *)

(** X2.  Every run does things in this order: at most one attempt to open a
    file, which is the parameter file given by [-p]; then at most one call
    of [os.makedirs], on the output directory; then at most one call of the
    workflow.  No file is opened when [-p] is absent.  The file is closed
    again exactly when its lines were parsed: when the parser of the
    parameters raises, the file stays open and the run ends there, and
    when the file cannot be opened the run ends there as well. *)
Theorem effects_in_order lib argv disk :
  let r := run lib argv disk in
  exists evs tail,
    trace r.2 = (evs ++ tail)%list /\
    parameter_file_events argv evs /\
    directory_and_workflow_events argv tail /\
    (arg_parameter_fp argv = None -> evs = []) /\
    (forall p, Open p true ∈ evs ->
       exists lines,
         files disk !! p = Some lines /\
         match parse_qiime_parameters lib lines with
         | Ok _ => evs = [Open p true; Close p]
         | Raise e => evs = [Open p true] /\ tail = [] /\ r.1 = Raise e
         end) /\
    (forall p, Open p false ∈ evs ->
       evs = [Open p false] /\ tail = [] /\
       r.1 = Raise (IOError (cannot_open_message p))).
Proof.
  intros r. subst r.
  pose proof (run_ends lib argv disk) as H.
  destruct (run lib argv disk) as [r w]; simpl in *.
  assert (forall opts lines evs,
    accepted lib argv disk opts -> parameter_lines opts disk lines evs ->
    forall params0, parse_qiime_parameters lib lines = Ok params0 ->
    parameter_file_events argv evs /\
    (arg_parameter_fp argv = None -> evs = []) /\
    (forall p, Open p true ∈ evs ->
       exists lines',
         files disk !! p = Some lines' /\
         match parse_qiime_parameters lib lines' with
         | Ok _ => evs = [Open p true; Close p]
         | Raise e => False
         end) /\
    (forall p, Open p false ∈ evs -> False)) as Hread.
  { intros opts lines evs Ha Hl params0 Hq. unfold parameter_lines in Hl.
    destruct (truthy_str (Opts.parameter_fp opts)) eqn:Hp.
    - destruct (truthy_str_inv _ Hp) as (p' & Hfp' & Hne).
      destruct Hl as (p & Hfp & Hfile & Hun & ->).
      assert (p' = p) as -> by congruence.
      rewrite (acc_parameter_fp _ _ _ _ Ha) in Hfp.
      split; [right; exists p; by auto|].
      split; [intros Hnone; congruence|].
      split.
      + intros q [[= <-]|Hin]%elem_of_cons;
          [|apply list_elem_of_singleton in Hin; discriminate].
        exists lines. split; [done|]. by rewrite Hq.
      + intros q [[=]|Hin]%elem_of_cons.
        apply list_elem_of_singleton in Hin; discriminate.
    - destruct Hl as [_ ->]. split; [by left|]. split; [done|].
      split; by intros q ?%elem_of_nil. }
  destruct H as [report|opts e evs Ha Hevs|opts lines evs params0 e Ha Hl Hq He
                |opts lines evs params0 dflt params e disk' Ha Hl Hq Hg Hv
                   Hmk Hf
                |opts lines evs params0 dflt params failure disk' c
                   Ha Hl Hq Hg Hv Hmk Hf Hfwd Hd]; simpl.
  - exists [], []. split; [done|]. split; [by left|]. split; [by left|].
    split; [done|]. split; by intros p ?%elem_of_nil.
  - exists evs, []. rewrite app_nil_r. split; [done|].
    destruct Hevs as [p Hfp Hne Hopen|p lines e Hfp Hne Hfile Hun Hq
                     |e Hfp Hq].
    + rewrite (acc_parameter_fp _ _ _ _ Ha) in Hfp.
      split; [right; exists p; by auto|]. split; [by left|].
      split; [intros Hnone; congruence|].
      split.
      * intros q [[=]|Hin%elem_of_nil]%elem_of_cons. done.
      * intros q [[= <-]|Hin%elem_of_nil]%elem_of_cons; done.
    + rewrite (acc_parameter_fp _ _ _ _ Ha) in Hfp.
      split; [right; exists p; by auto|]. split; [by left|].
      split; [intros Hnone; congruence|].
      split.
      * intros q [[= <-]|Hin%elem_of_nil]%elem_of_cons; [|done].
        exists lines. split; [done|]. by rewrite Hq.
      * intros q [[=]|Hin%elem_of_nil]%elem_of_cons. done.
    + split; [by left|]. split; [by left|]. split; [done|].
      split; by intros p ?%elem_of_nil.
  - destruct (Hread _ _ _ Ha Hl _ Hq) as (Hfile & Hnone & Hopen & Hnot).
    exists evs, []. rewrite app_nil_r. split; [done|]. split; [done|].
    split; [by left|]. split; [done|]. split.
    + intros p (lines' & Hl' & Hp)%Hopen. exists lines'. split; [done|].
      by destruct (parse_qiime_parameters lib lines').
    + by intros p ?%Hnot.
  - destruct (Hread _ _ _ Ha Hl _ Hq) as (Hfile & Hnone & Hopen & Hnot).
    exists evs, [Makedirs (Opts.output_dir opts) (Some e)].
    split; [done|]. split; [done|].
    split.
    { right. exists (Opts.output_dir opts), (Some e).
      split; [apply Ha | by left]. }
    split; [done|]. split.
    + intros p (lines' & Hl' & Hp)%Hopen. exists lines'. split; [done|].
      by destruct (parse_qiime_parameters lib lines').
    + by intros p ?%Hnot.
  - destruct (Hread _ _ _ Ha Hl _ Hq) as (Hfile & Hnone & Hopen & Hnot).
    exists evs, [Makedirs (Opts.output_dir opts) failure; Invoke c].
    split; [done|]. split; [done|].
    split.
    { right. exists (Opts.output_dir opts), failure.
      split; [apply Ha | right; by exists c]. }
    split; [done|]. split.
    + intros p (lines' & Hl' & Hp)%Hopen. exists lines'. split; [done|].
      by destruct (parse_qiime_parameters lib lines').
    + by intros p ?%Hnot.
Qed.

(** ** Adding [-f] to a command that works *)

Lemma no_arguments_with_force argv : no_arguments (with_force argv) = false.
Proof.
  unfold no_arguments; simpl. by repeat (rewrite andb_false_r; simpl).
Qed.

Lemma parse_with_force lib argv w :
  no_arguments argv = false ->
  parse_command_line_parameters lib (with_force argv) w =
    fmapM opts_with_force (parse_command_line_parameters lib argv) w.
Proof.
  intros Hargs. unfold parse_command_line_parameters.
  rewrite no_arguments_with_force, Hargs, fmapM_bind, !bind_ret_l.
  destruct argv; simpl.
  rewrite fmapM_bind.
  eapply parses_bind_eq;
    [apply parses_optional, parses_existing_filepaths|]; intros ? _.
  rewrite fmapM_bind.
  eapply parses_bind_eq;
    [apply parses_optional, parses_existing_filepath|]; intros ? _.
  rewrite fmapM_bind.
  eapply parses_bind_eq;
    [apply parses_optional, parses_new_dirpath|]; intros ? _.
  rewrite fmapM_bind.
  eapply parses_bind_eq; [apply parses_choice|]; intros ? _.
  do 4 (rewrite fmapM_bind;
        eapply parses_bind_eq;
          [apply parses_optional, parses_existing_filepath|]; intros ? _).
  do 3 (rewrite fmapM_bind;
        eapply parses_bind_eq; [apply parses_required|]; intros ? _).
  reflexivity.
Qed.

Lemma bind_Ok_transfer {A B} (m : M A) (k k' : A -> M B) w b w' :
  bind m k w = (Ok b, w') ->
  (forall a w1, k a w1 = (Ok b, w') -> k' a w1 = (Ok b, w')) ->
  bind m k' w = (Ok b, w').
Proof.
  unfold bind. destruct (m w) as [[a|e] w1]; [auto | discriminate].
Qed.

Lemma bind_try_except_transfer {A B} (body : M A) handler handler'
    (k : A -> M B) w b w' :
  bind (try_except body handler) k w = (Ok b, w') ->
  (forall e h, handler e = Some h ->
     exists h', handler' e = Some h' /\
       forall w1 a w2, h w1 = (Ok a, w2) -> h' w1 = (Ok a, w2)) ->
  (forall e, handler e = None -> handler' e = None) ->
  bind (try_except body handler') k w = (Ok b, w').
Proof.
  unfold bind, try_except. intros H Hsome Hnone.
  destruct (body w) as [[a|e] w1]; [exact H|].
  destruct (handler e) as [h|] eqn:E.
  - destruct (Hsome e h E) as (h' & -> & Hh).
    destruct (h w1) as [[a|e'] w2] eqn:E'; [|discriminate].
    by rewrite (Hh w1 a w2 E').
  - by rewrite (Hnone e E).
Qed.

(** X13.  [-f] changes nothing in a command that works: a run that ends normally
    ends in the very same way, with the same disk, events and workflow
    call, when [-f] is added to its command line. *)
Theorem force_changes_no_successful_run lib argv disk w :
  run lib argv disk = (Ok tt, w) ->
  run lib (with_force argv) disk = (Ok tt, w).
Proof.
  intros H.
  assert (no_arguments argv = false) as Hargs.
  { destruct (no_arguments argv) eqn:E; [|done].
    rewrite run_no_arguments in H by done. discriminate H. }
  unfold run, main in *.
  rewrite (bind_ext_at
             (parse_command_line_parameters lib (with_force argv))
             (fmapM opts_with_force
                    (parse_command_line_parameters lib argv)))
    by (by apply parse_with_force).
  unfold fmapM. rewrite bind_assoc.
  eapply bind_Ok_transfer; [exact H|]. clear H.
  intros opts w0 H. rewrite bind_ret_l. cbv zeta in *.
  unfold opts_with_force; simpl.
  eapply bind_Ok_transfer; [exact H|]. clear H. intros methods w1 H.
  eapply bind_Ok_transfer; [exact H|]. clear H. intros params0 w2 H.
  eapply bind_Ok_transfer; [exact H|]. clear H. intros dflt w3 H.
  eapply bind_Ok_transfer; [exact H|]. clear H. intros params w4 H.
  eapply bind_try_except_transfer; [exact H| |].
  - intros [] h [= <-]; simpl. eexists. split; [reflexivity|].
    intros w5 a w6. by destruct (truthy_flag (Opts.force opts)).
  - by intros [].
Qed.

Lemma force_changes_no_successful_run_witness :
  exists w,
    run Example.lib Example.single Example.disk = (Ok tt, w) /\
    run Example.lib (with_force Example.single) Example.disk = (Ok tt, w).
Proof.
  assert (exists w,
    run Example.lib Example.single Example.disk = (Ok tt, w))
    as [w Hw] by (vm_compute; eauto).
  exists w. split; [exact Hw|].
  exact (force_changes_no_successful_run _ _ _ w Hw).
Defined.

(** ** Runs that reach the workflow *)

(** X14.  Nothing else can stop a run before the workflow: when the command
    line is accepted, the parameters are read and parsed, the number of
    jobs is validated, and the output directory can be created or [-f] is
    given, the run calls the workflow, with these parameters, on the disk
    [os.makedirs] has left, and ends as the workflow ends.  In particular
    the "Unkown OTU picking method" branch is never taken. *)
Theorem accepted_run_reaches_workflow lib argv disk opts lines evs
    params0 default_jobs_to_start params :
  (parse_command_line_parameters lib argv
     {| fs := disk; trace := [] |}).1 = Ok opts ->
  parameter_lines opts disk lines evs ->
  parse_qiime_parameters lib lines = Ok params0 ->
  qiime_config_getitem lib (load_qiime_config lib) "jobs_to_start" =
    Ok default_jobs_to_start ->
  validate_and_set_jobs_to_start lib params0
    (with_default (jobs_to_start_workflow_default lib)
                  (arg_jobs_to_start argv))
    default_jobs_to_start (arg_parallel argv) = Ok params ->
  arg_force argv = true \/
    (os_makedirs (Opts.output_dir opts) disk).1 = None ->
  exists c,
    trace (run lib argv disk).2 =
      (evs ++ [Makedirs (Opts.output_dir opts)
                 (os_makedirs (Opts.output_dir opts) disk).1;
               Invoke c])%list /\
    invoked (run lib argv disk).2 = [c] /\
    Kw.params (kwargs c) = params /\
    (run lib argv disk).1 =
      returned (workflow lib c (os_makedirs (Opts.output_dir opts) disk).2)
    /\
    fs (run lib argv disk).2 =
      write_artifacts (Opts.output_dir opts)
        (written (workflow lib c
                    (os_makedirs (Opts.output_dir opts) disk).2))
        (os_makedirs (Opts.output_dir opts) disk).2.
Proof.
  intros Hparse Hl Hq Hg Hv Hdir.
  pose proof (accepted_by_parser _ _ _ _ Hparse) as [_ Ha].
  pose proof (parameter_lines_file_events _ _ _ _ Hl) as Hevs.
  destruct (os_makedirs (Opts.output_dir opts) disk) as [failure disk']
    eqn:Hmk. simpl in *.
  destruct (run_reaches_workflow lib argv disk opts lines evs params0
              default_jobs_to_start params failure disk' Hparse)
    as (c & Hrun & Hfwd & _); try done.
  - by rewrite (acc_jobs_to_start _ _ _ _ Ha), (acc_parallel _ _ _ _ Ha).
  - intros Hfail. rewrite (acc_force _ _ _ _ Ha).
    destruct Hdir as [-> | ->]; done.
  - exists c. rewrite Hrun. simpl. split; [done|].
    split; [by apply invoked_after_makedirs|].
    split; [apply Hfwd | done].
Qed.

Lemma accepted_run_reaches_workflow_witness :
  exists c,
    invoked (run Cases.failing Example.single Example.disk).2 = [c] /\
    (run Cases.failing Example.single Example.disk).1 =
      returned (workflow Cases.failing c
                  (os_makedirs "/home/ubuntu/out" Example.disk).2).
Proof.
  assert (exists opts,
    (parse_command_line_parameters Cases.failing Example.single
       {| fs := Example.disk; trace := [] |}).1 = Ok opts /\
    Opts.output_dir opts = "/home/ubuntu/out")
    as (opts & Hopts & Hout) by (vm_compute; eauto).
  assert (exists params,
    validate_and_set_jobs_to_start Cases.failing ∅ 1 (Some "1") false =
      Ok params) as [params Hv] by (vm_compute; eauto).
  destruct (accepted_run_reaches_workflow Cases.failing Example.single
              Example.disk opts [] [] ∅ (Some "1") params Hopts)
    as (c & _ & Hc & _ & Hr & _).
  - apply accepted_by_parser in Hopts as [_ Ha].
    unfold parameter_lines. by rewrite (acc_parameter_fp _ _ _ _ Ha).
  - reflexivity.
  - reflexivity.
  - exact Hv.
  - right. rewrite Hout. reflexivity.
  - exists c. rewrite Hout in Hr. split; [exact Hc | exact Hr].
Defined.
